(** * mcp-cli chat handler: the tool-augmented conversation loop

    A shallow embedding of [src/mcpcli/chat_handler.py]: the registry built
    by [handle_chat_mode], the conversation loop of [process_conversation]
    and the per-call dispatch nested in it, together with the properties the
    specification states about them.

    Python objects are modelled by the values the handler can observe:
    - a [str] is the string of its UTF-8 bytes;
    - a value that may be [None] or a string is a [pyval];
    - an attribute that may be missing on a duck-typed object is an
      [option], and reading it raises [AttributeError] when it is [None];
    - a dict key that may be absent is an [option] as well, read with
      [dict.get(key, default)];
    - [conversation_history] is one mutable list shared by the whole
      session, so it lives in the threaded state and survives exceptions.

    [print] is [rich.print].  A notice whose text is fixed, and a panel
    holding a [Markdown] renderable, are printed as they are.  A notice that
    interpolates a name, a message or a typed line is parsed as console
    markup, and [rich] raises [MarkupError] when the text does not parse;
    such a notice goes through [print_markup].

    The collaborators that are not part of the file (the model client, the
    backend transport, the JSON parser, the prompt generator, the markup
    parser of [rich], the texts of exceptions and objects) are the fields of
    the [Externals] class; a world of type [W] is threaded through the ones
    that perform input or output. *)

From stdpp Require Import gmap strings list fin_maps.
From Stdlib Require Import Ascii String ZArith DecimalString.

Open Scope string_scope.
Open Scope list_scope.
Open Scope stdpp_scope.
Set Warnings "-register-all".

(** ** Python values *)

Inductive pyval : Type :=
| PyNone
| PyStr (s : string).

(** Truthiness as used by [if x], [not x] and [x or y]. *)
Definition truthy (v : pyval) : bool :=
  match v with
  | PyNone => false
  | PyStr s => negb (String.eqb s "")
  end.

(** [str(v)], the rendering an f-string gives. *)
Definition py_str (v : pyval) : string :=
  match v with
  | PyNone => "None"
  | PyStr s => s
  end.

(** [x or y]. *)
Definition py_or (x y : pyval) : pyval := if truthy x then x else y.

(** [d.get(key, dflt)] for a key that is absent ([None]) or bound. *)
Definition dict_get {A : Type} (field : option A) (dflt : A) : A :=
  match field with
  | Some v => v
  | None => dflt
  end.

Inductive json : Type :=
| JNull
| JBool (b : bool)
| JNum (z : Z)
| JStr (s : string)
| JArr (items : list json)
| JObj (members : list (string * json)).

Inductive Exception : Type :=
| AttributeError (attribute : string)
| JSONDecodeError (msg : string)
| MarkupError (msg : string)
| OtherException (msg : string).

(** ** [str.strip] and [str.lower]

    [str.strip()] removes, at both ends, the characters [str.isspace]
    holds for: U+0009 to U+000D, U+001C to U+0020, U+0085, U+00A0, U+1680,
    U+2000 to U+200A, U+2028, U+2029, U+202F, U+205F and U+3000.  In UTF-8
    they take one, two or three bytes. *)

Definition space1 (a : nat) : bool :=
  ((9 <=? a)%nat && (a <=? 13)%nat) || ((28 <=? a)%nat && (a <=? 32)%nat).

Definition space2 (a b : nat) : bool :=
  (a =? 194)%nat && ((b =? 133)%nat || (b =? 160)%nat).

Definition space3 (a b c : nat) : bool :=
  ((a =? 225)%nat && (b =? 154)%nat && (c =? 128)%nat)
  || ((a =? 226)%nat && (b =? 128)%nat &&
      (((128 <=? c)%nat && (c <=? 138)%nat)
       || (c =? 168)%nat || (c =? 169)%nat || (c =? 175)%nat))
  || ((a =? 226)%nat && (b =? 129)%nat && (c =? 159)%nat)
  || ((a =? 227)%nat && (b =? 128)%nat && (c =? 128)%nat).

(** Removes the leading characters whose bytes, in the order met, satisfy
    [space1], [p2] or [p3]. *)
Fixpoint lstrip_with (p2 : nat → nat → bool) (p3 : nat → nat → nat → bool)
    (s : string) : string :=
  match s with
  | EmptyString => EmptyString
  | String a s1 =>
      if space1 (nat_of_ascii a) then lstrip_with p2 p3 s1
      else
        match s1 with
        | EmptyString => s
        | String b s2 =>
            if p2 (nat_of_ascii a) (nat_of_ascii b) then lstrip_with p2 p3 s2
            else
              match s2 with
              | EmptyString => s
              | String c s3 =>
                  if p3 (nat_of_ascii a) (nat_of_ascii b) (nat_of_ascii c)
                  then lstrip_with p2 p3 s3
                  else s
              end
        end
  end.

Fixpoint reverse_onto (s acc : string) : string :=
  match s with
  | EmptyString => acc
  | String a s' => reverse_onto s' (String a acc)
  end.

Definition reverse (s : string) : string := reverse_onto s EmptyString.

Definition lstrip (s : string) : string := lstrip_with space2 space3 s.

(** The trailing characters are the leading ones of the reversed string,
    their bytes met last to first. *)
Definition rstrip (s : string) : string :=
  reverse (lstrip_with (λ b a, space2 a b) (λ c b a, space3 a b c) (reverse s)).

Definition strip (s : string) : string := rstrip (lstrip s).

(** [str.lower()] on the letters A to Z.  Outside them [str.lower] maps
    one character into the ASCII letters, U+212A to [k], which is in
    neither exit keyword (U+0130 lowers to [i] followed by U+0307), so the
    exit test below is decided by these. *)
Definition lower_ascii (c : ascii) : ascii :=
  let n := nat_of_ascii c in
  if (65 <=? n)%nat && (n <=? 90)%nat then ascii_of_nat (n + 32) else c.

Fixpoint lower (s : string) : string :=
  match s with
  | EmptyString => EmptyString
  | String c s' => String (lower_ascii c) (lower s')
  end.

(** [user_message.lower() in ["exit", "quit"]] *)
Definition is_exit_keyword (user_message : string) : bool :=
  let l := lower user_message in
  String.eqb l "exit" || String.eqb l "quit".

(** ** Data model *)

(** A tool descriptor, the dict a backend lists; [tool.get('name')] is
    [PyNone] when the key is missing. *)
Record Tool : Type := mkTool {
  tool_name : pyval;
  inputSchema : json }.

(** A backend is addressed by its pair [(read_stream, write_stream)]. *)
Definition Stream : Type := nat.

(** [tool_call.function], with attributes that may be missing. *)
Record FunctionObj : Type := mkFunction {
  fn_name : option pyval;
  fn_arguments : option pyval }.

(** One entry of [completion["tool_calls"]]. *)
Record ToolCall : Type := mkToolCall {
  tc_id : string;
  tc_function : option FunctionObj }.

(** The dict stored under ["tool_calls"] of an assistant message. *)
Record ToolCallEntry : Type := mkEntry {
  entry_id : string;
  entry_name : pyval;
  entry_arguments : pyval }.

(** A turn of the conversation: the dicts appended to
    [conversation_history]. *)
Inductive Message : Type :=
| SystemMsg (content : string)
| UserMsg (content : string)
| AssistantMsg (content : pyval) (tool_calls : option (list ToolCallEntry))
| ToolMsg (tool_call_id : string) (name : string) (content : pyval).

(** What [create_completion] returns: [response] may be an absent key, and
    an absent, [None] or empty ["tool_calls"] is the empty list. *)
Record Completion : Type := mkCompletion {
  response : option pyval;
  completion_tool_calls : list ToolCall }.

(** What [send_call_tool] returns; [isError] is the truthiness of the key. *)
Record CallResult : Type := mkCallResult {
  isError : bool;
  error : option pyval;
  result_content : option pyval }.

Record LLMClient : Type := mkLLMClient {
  provider : string;
  model : string }.

(** An element of the local list [tool_responses]. *)
Record ToolResponse : Type := mkToolResponse {
  tr_tool_call_id : string;
  tr_name : string;
  tr_content : pyval }.

(** ** Instrumentation: the calls made to collaborators and the console *)

Inductive Call : Type :=
| CallFetchTools (server : Stream * Stream)
| CallCompletion (client : LLMClient) (messages : list Message) (tools : list json)
| CallTool (tool : string) (arguments : json) (server : Stream * Stream).

Inductive Output : Type :=
| OutNoTools
| OutChatModeError (e : Exception)
| OutExiting
| OutUser (text : string)
| OutNoFunctionAttr (call_id : string)
| OutInvalidToolCall (call_id : string)
| OutToolNotFound (tool : string)
| OutArgParseError (tool : string) (msg : string)
| OutNoArgumentsAttr (call_id : string)
| OutToolInvocation (tool : string) (arguments : json)
| OutToolError (tool : string) (error_msg : string)
| OutToolResponse (tool : string) (content : string)
| OutAssistant (text : string)
| OutProcessingError (e : Exception).

Definition is_completion_call (c : Call) : bool :=
  match c with CallCompletion _ _ _ => true | _ => false end.

Definition is_tool_call (c : Call) : bool :=
  match c with CallTool _ _ _ => true | _ => false end.

Definition is_tool_msg (m : Message) : bool :=
  match m with ToolMsg _ _ _ => true | _ => false end.

(** ** The collaborators *)

Class Externals (W : Type) : Type := {
  fetch_tools : Stream * Stream → W → W * (Exception + list Tool);
  create_completion :
    LLMClient → list Message → list json → W → W * (Exception + Completion);
  send_call_tool :
    string → json → Stream * Stream → W → W * (Exception + CallResult);
  json_loads : string → string + json;
  generate_prompt : list Tool → string;
  convert_to_openai_tools : list Tool → list json;
  (** the console markup parser of [rich]: the message of the
      [MarkupError] it raises on a text, if it raises *)
  markup_error : string → option string;
  (** [str(e)] *)
  str_exception : Exception → string;
  (** [f"{tool_call}"] and [f"{tool_call.function}"] *)
  str_tool_call : ToolCall → string;
  str_function : FunctionObj → string }.

(** ** State and exceptions *)

Section Handler.
Context {W : Type} `{Ext : Externals W}.

Record State : Type := mkState {
  history : list Message;
  world : W;
  trace : list Call;
  console : list Output }.

Definition set_history (h : list Message) (st : State) : State :=
  mkState h (world st) (trace st) (console st).

Definition set_world (w : W) (c : Call) (st : State) : State :=
  mkState (history st) w (trace st ++ [c]) (console st).

Definition add_output (o : Output) (st : State) : State :=
  mkState (history st) (world st) (trace st) (console st ++ [o]).

(** A computation changes the state and returns or raises; the state
    reached when it raises is kept, as the objects it mutated are. *)
Definition M (A : Type) : Type := State → State * (Exception + A).

Definition ret {A : Type} (a : A) : M A := λ st, (st, inr a).

Definition raise {A : Type} (e : Exception) : M A := λ st, (st, inl e).

Definition bind {A B : Type} (m : M A) (k : A → M B) : M B :=
  λ st, match m st with
        | (st', inr a) => k a st'
        | (st', inl e) => (st', inl e)
        end.

(** [try: m  except Exception as e: h e] *)
Definition try_except {A : Type} (m : M A) (h : Exception → M A) : M A :=
  λ st, match m st with
        | (st', inr a) => (st', inr a)
        | (st', inl e) => h e st'
        end.

Definition lift {A : Type} (r : Exception + A) : M A := λ st, (st, r).

(** [print] of a fixed text or of a panel holding [Markdown]. *)
Definition print (o : Output) : M unit := λ st, (add_output o st, inr tt).

(** [print] of a notice whose [text] is parsed as console markup: nothing
    is shown and [MarkupError] is raised when the text does not parse. *)
Definition print_markup (text : string) (o : Output) : M unit :=
  λ st, match markup_error text with
        | Some msg => (st, inl (MarkupError msg))
        | None => (add_output o st, inr tt)
        end.

(** [conversation_history.append(msg)] *)
Definition append (msg : Message) : M unit :=
  λ st, (set_history (history st ++ [msg]) st, inr tt).

(** [conversation_history = h] *)
Definition new_history (h : list Message) : M unit :=
  λ st, (set_history h st, inr tt).

Definition call_fetch_tools (server : Stream * Stream) : M (list Tool) :=
  λ st, let '(w, r) := fetch_tools server (world st) in
        (set_world w (CallFetchTools server) st, r).

Definition call_create_completion (client : LLMClient) (tools : list json)
  : M Completion :=
  λ st, let '(w, r) := create_completion client (history st) tools (world st) in
        (set_world w (CallCompletion client (history st) tools) st, r).

Definition call_send_call_tool (tool : string) (arguments : json)
    (server : Stream * Stream) : M CallResult :=
  λ st, let '(w, r) := send_call_tool tool arguments server (world st) in
        (set_world w (CallTool tool arguments server) st, r).

Notation "x <- c ;; k" := (bind c (λ x, k))
  (at level 100, c at next level, right associativity).
Notation "c ;; k" := (bind c (λ _, k))
  (at level 100, right associativity).

(** ** The texts of the notices parsed as markup *)

(** Line 75: [user_message if user_message else "[No Message]"] *)
Definition user_panel_text (user_message : string) : string :=
  if String.eqb user_message "" then "[No Message]" else user_message.

(** Line 110 *)
Definition no_function_text (tool_call : ToolCall) : string :=
  "[red]Error: 'function' attribute not found in tool_call: "
  +:+ str_tool_call tool_call +:+ "[/red]".

(** Line 114 *)
Definition invalid_call_text (tool_call : ToolCall) : string :=
  "[red]Invalid tool call: " +:+ str_tool_call tool_call +:+ "[/red]".

(** Line 119 *)
Definition not_found_text (tool_name : string) : string :=
  "[red]Tool '" +:+ tool_name +:+ "' not found on any server.[/red]".

(** Line 127 *)
Definition parse_error_text (tool_name msg : string) : string :=
  "[red]Error parsing arguments for tool '" +:+ tool_name +:+ "': "
  +:+ msg +:+ "[/red]".

(** Line 130 *)
Definition no_arguments_text (f : FunctionObj) : string :=
  "[red]Error: 'arguments' attribute not found in tool_call.function: "
  +:+ str_function f +:+ "[/red]".

(** Line 147 *)
Definition tool_error_text (tool_name error_msg : string) : string :=
  "[red]Error calling tool '" +:+ tool_name +:+ "': " +:+ error_msg
  +:+ "[/red]".

(** Line 201 *)
Definition round_error_text (e : Exception) : string :=
  "[red]Error processing message:[/red] " +:+ str_exception e.

(** Line 50 *)
Definition chat_error_text (e : Exception) : string :=
  "[red]Error in chat mode:[/red] " +:+ str_exception e.

(** ** Tool Registry: [handle_chat_mode], lines 22-30 *)

(** The inner loop over one backend's descriptors: a named tool is added to
    [tools] and [tool_to_server[tool_name]] is assigned the backend. *)
Fixpoint register_tools (server : Stream * Stream) (server_tools : list Tool)
    (acc : list Tool * gmap string (Stream * Stream))
  : list Tool * gmap string (Stream * Stream) :=
  match server_tools with
  | [] => acc
  | tool :: rest =>
      let tool_name := tool_name tool in
      if truthy tool_name
      then register_tools server rest
             (acc.1 ++ [tool], <[py_str tool_name := server]> (acc.2))
      else register_tools server rest acc
  end.

(** The outer loop over [server_streams]. *)
Fixpoint discover (server_streams : list (Stream * Stream))
    (acc : list Tool * gmap string (Stream * Stream))
  : M (list Tool * gmap string (Stream * Stream)) :=
  match server_streams with
  | [] => ret acc
  | server :: rest =>
      server_tools <- call_fetch_tools server ;;
      discover rest (register_tools server server_tools acc)
  end.

(** ** Attribute access on tool-call objects *)

Definition getattr {A : Type} (attribute : string) (o : option A)
  : Exception + A :=
  match o with
  | Some v => inr v
  | None => inl (AttributeError attribute)
  end.

(** [tool_call.function.name] *)
Definition function_name (tool_call : ToolCall) : Exception + pyval :=
  match getattr "function" (tc_function tool_call) with
  | inl e => inl e
  | inr f => getattr "name" (fn_name f)
  end.

(** [tool_call.function.arguments] *)
Definition function_arguments (tool_call : ToolCall) : Exception + pyval :=
  match getattr "function" (tc_function tool_call) with
  | inl e => inl e
  | inr f => getattr "arguments" (fn_arguments f)
  end.

(** One element of the list comprehension of lines 93-102. *)
Definition tool_call_entry (tool_call : ToolCall) : Exception + ToolCallEntry :=
  match function_name tool_call with
  | inl e => inl e
  | inr n =>
      match function_arguments tool_call with
      | inl e => inl e
      | inr a => inr (mkEntry (tc_id tool_call) n a)
      end
  end.

Fixpoint tool_call_entries (tool_calls : list ToolCall)
  : Exception + list ToolCallEntry :=
  match tool_calls with
  | [] => inr []
  | tool_call :: rest =>
      match tool_call_entry tool_call with
      | inl e => inl e
      | inr x =>
          match tool_call_entries rest with
          | inl e => inl e
          | inr xs => inr (x :: xs)
          end
      end
  end.

(** ** Invocation Dispatcher: the body of the loop of lines 106-169 *)

(** Lines 123-131: a raw argument string that does not parse, or a missing
    [arguments] attribute, is reported and replaced by the empty map. *)
Definition parse_arguments (tool_name : string) (tool_call : ToolCall) : M json :=
  match function_arguments tool_call with
  | inr a =>
      let arguments_str := py_str (py_or a (PyStr "{}")) in
      match json_loads arguments_str with
      | inr arguments => ret arguments
      | inl msg =>
          print_markup (parse_error_text tool_name msg)
            (OutArgParseError tool_name msg) ;;
          ret (JObj [])
      end
  | inl (AttributeError _) =>
      f <- lift (getattr "function" (tc_function tool_call)) ;;
      print_markup (no_arguments_text f) (OutNoArgumentsAttr (tc_id tool_call)) ;;
      ret (JObj [])
  | inl e => raise e
  end.

(** Lines 145-169: the response built from the backend's result. *)
Definition report_result (debug : bool) (tool_call : ToolCall)
    (tool_name : string) (result : CallResult)
    (tool_responses : list ToolResponse) : M (list ToolResponse) :=
  if isError result
  then
    let error_msg := dict_get (error result) (PyStr "Unknown error") in
    print_markup (tool_error_text tool_name (py_str error_msg))
      (OutToolError tool_name (py_str error_msg)) ;;
    ret (tool_responses ++
         [mkToolResponse (tc_id tool_call) tool_name
            (PyStr ("Error: " +:+ py_str error_msg))])
  else
    let response_content :=
      dict_get (result_content result) (PyStr "No content") in
    (if debug
     then print (OutToolResponse tool_name (py_str response_content))
     else ret tt) ;;
    ret (tool_responses ++
         [mkToolResponse (tc_id tool_call) tool_name response_content]).

Definition dispatch_tool_call (debug : bool)
    (tool_to_server : gmap string (Stream * Stream))
    (tool_call : ToolCall) (tool_responses : list ToolResponse)
  : M (list ToolResponse) :=
  match function_name tool_call with
  | inl (AttributeError _) =>
      print_markup (no_function_text tool_call)
        (OutNoFunctionAttr (tc_id tool_call)) ;;
      ret tool_responses
  | inl e => raise e
  | inr name =>
      if negb (truthy name)
      then
        print_markup (invalid_call_text tool_call)
          (OutInvalidToolCall (tc_id tool_call)) ;;
        ret tool_responses
      else
        let tool_name := py_str name in
        match tool_to_server !! tool_name with
        | None =>
            print_markup (not_found_text tool_name) (OutToolNotFound tool_name) ;;
            ret tool_responses
        | Some server_stream =>
            arguments <- parse_arguments tool_name tool_call ;;
            print (OutToolInvocation tool_name arguments) ;;
            result <- call_send_call_tool tool_name arguments server_stream ;;
            report_result debug tool_call tool_name result tool_responses
        end
  end.

Fixpoint dispatch_tool_calls (debug : bool)
    (tool_to_server : gmap string (Stream * Stream))
    (tool_calls : list ToolCall) (tool_responses : list ToolResponse)
  : M (list ToolResponse) :=
  match tool_calls with
  | [] => ret tool_responses
  | tool_call :: rest =>
      tool_responses' <-
        dispatch_tool_call debug tool_to_server tool_call tool_responses ;;
      dispatch_tool_calls debug tool_to_server rest tool_responses'
  end.

(** Lines 171-176: a [None] content is replaced before the dict is
    appended to the history. *)
Definition tool_message (r : ToolResponse) : Message :=
  ToolMsg (tr_tool_call_id r) (tr_name r)
    (match tr_content r with
     | PyNone => PyStr "No response from tool"
     | c => c
     end).

Fixpoint append_tool_responses (tool_responses : list ToolResponse) : M unit :=
  match tool_responses with
  | [] => ret tt
  | tool_response :: rest =>
      append (tool_message tool_response) ;; append_tool_responses rest
  end.

(** [response_content if response_content else "[No Response]"] *)
Definition assistant_panel_text (response_content : pyval) : string :=
  if truthy response_content then py_str response_content else "[No Response]".

(** Lines 178-190: the followup completion. *)
Definition followup (client : LLMClient) (openai_tools : list json) : M unit :=
  completion <- call_create_completion client openai_tools ;;
  let response_content :=
    py_or (dict_get (response completion) PyNone)
      (PyStr "I processed the tool responses but have nothing specific to add.") in
  print (OutAssistant (assistant_panel_text response_content)) ;;
  append (AssistantMsg response_content None).

(** Lines 88-191: the branch taken when the completion requests tools. *)
Definition handle_tool_calls (client : LLMClient) (openai_tools : list json)
    (tool_to_server : gmap string (Stream * Stream)) (debug : bool)
    (response_content : pyval) (tool_calls : list ToolCall) : M unit :=
  entries <- lift (tool_call_entries tool_calls) ;;
  append (AssistantMsg
            (if truthy response_content then response_content
             else PyStr "I'll help you with that.")
            (Some entries)) ;;
  tool_responses <- dispatch_tool_calls debug tool_to_server tool_calls [] ;;
  append_tool_responses tool_responses ;;
  followup client openai_tools.

(** ** The round and the loop: [process_conversation] *)

Inductive Control : Type := Break | Continue.

Inductive SessionStatus : Type := SessionEnded | AwaitingUserInput.

(** [Prompt.ask] returns the line the user typed, or raises. *)
Definition UserInput : Type := (Exception + string)%type.

(** Lines 70-198: the body of the [try] of one iteration. *)
Definition round_body (client : LLMClient) (openai_tools : list json)
    (tool_to_server : gmap string (Stream * Stream)) (debug : bool)
    (input : UserInput) : M Control :=
  line <- lift input ;;
  let user_message := strip line in
  if is_exit_keyword user_message
  then print OutExiting ;; ret Break
  else
    print_markup (user_panel_text user_message)
      (OutUser (user_panel_text user_message)) ;;
    append (UserMsg user_message) ;;
    completion <- call_create_completion client openai_tools ;;
    let response_content :=
      dict_get (response completion) (PyStr "No response") in
    let tool_calls := completion_tool_calls completion in
    match tool_calls with
    | _ :: _ =>
        handle_tool_calls client openai_tools tool_to_server debug
          response_content tool_calls ;;
        ret Continue
    | [] =>
        print (OutAssistant (assistant_panel_text response_content)) ;;
        append (AssistantMsg response_content None) ;;
        ret Continue
    end.

(** Lines 200-202: the handler at the round boundary. *)
Definition handle_round_error (e : Exception) : M Control :=
  print_markup (round_error_text e) (OutProcessingError e) ;;
  ret Continue.

(** Lines 69-202: one iteration. *)
Definition round (client : LLMClient) (openai_tools : list json)
    (tool_to_server : gmap string (Stream * Stream)) (debug : bool)
    (input : UserInput) : M Control :=
  try_except
    (round_body client openai_tools tool_to_server debug input)
    handle_round_error.

(** [while True], driven by the lines the user will type; when they run
    out the loop is blocked in [Prompt.ask]. *)
Fixpoint conversation_loop (client : LLMClient) (openai_tools : list json)
    (tool_to_server : gmap string (Stream * Stream)) (debug : bool)
    (inputs : list UserInput) : M SessionStatus :=
  match inputs with
  | [] => ret AwaitingUserInput
  | input :: rest =>
      c <- round client openai_tools tool_to_server debug input ;;
      match c with
      | Break => ret SessionEnded
      | Continue =>
          conversation_loop client openai_tools tool_to_server debug rest
      end
  end.

(** [os.getenv(key, dflt)] *)
Definition getenv (environ : gmap string string) (key dflt : string) : string :=
  dict_get (environ !! key) dflt.

(** Lines 63-65: the client the loop uses, whatever was passed in. *)
Definition make_client (environ : gmap string string) : LLMClient :=
  let provider := getenv environ "LLM_PROVIDER" "openai" in
  let model := getenv environ "LLM_MODEL" "gpt-4o-mini" in
  mkLLMClient provider model.

Definition process_conversation (environ : gmap string string)
    (client : option LLMClient) (openai_tools : list json)
    (tool_to_server : gmap string (Stream * Stream)) (tools : list Tool)
    (debug : bool) (inputs : list UserInput) : M SessionStatus :=
  let client := make_client environ in
  conversation_loop client openai_tools tool_to_server debug inputs.

(** ** [generate_system_prompt] *)

Definition GENERAL_GUIDELINES : string := "

**GENERAL GUIDELINES:**

1. Step-by-step reasoning:
   - Analyze tasks systematically.
   - Break down complex problems into smaller, manageable parts.
   - Verify assumptions at each step to avoid errors.
   - Reflect on results to improve subsequent actions.

2. Effective tool usage:
   - Explore:
     - Identify available information and verify its structure.
     - Check assumptions and understand data relationships.
   - Iterate:
     - Start with simple queries or actions.
     - Build upon successes, adjusting based on observations.
   - Handle errors:
     - Carefully analyze error messages.
     - Use errors as a guide to refine your approach.
     - Document what went wrong and suggest fixes.

3. Clear communication:
   - Explain your reasoning and decisions at each step.
   - Share discoveries transparently with the user.
   - Outline next steps or ask clarifying questions as needed.

EXAMPLES OF BEST PRACTICES:

- Working with databases:
  - Check schema before writing queries.
  - Verify the existence of columns or tables.
  - Start with basic queries and refine based on results.

- Processing data:
  - Validate data formats and handle edge cases.
  - Ensure integrity and correctness of results.

- Accessing resources:
  - Confirm resource availability and permissions.
  - Handle missing or incomplete data gracefully.

REMEMBER:
- Be thorough and systematic.
- Each tool call should have a clear and well-explained purpose.
- Make reasonable assumptions if ambiguous.
- Minimize unnecessary user interactions by providing actionable insights.

EXAMPLES OF ASSUMPTIONS:
- Default sorting (e.g., descending order) if not specified.
- Assume basic user intentions, such as fetching top results by a common metric.
".

Definition generate_system_prompt (tools : list Tool) : string :=
  generate_prompt tools +:+ GENERAL_GUIDELINES.

(** ** [handle_chat_mode] *)

Definition handle_chat_mode (environ : gmap string string)
    (server_streams : list (Stream * Stream)) (provider model : string)
    (debug : bool) (inputs : list UserInput) : M SessionStatus :=
  try_except
    (discovered <- discover server_streams ([], ∅) ;;
     let tools := discovered.1 in
     let tool_to_server := discovered.2 in
     match tools with
     | [] => print OutNoTools ;; ret SessionEnded
     | _ :: _ =>
         let system_prompt := generate_system_prompt tools in
         let openai_tools := convert_to_openai_tools tools in
         new_history [SystemMsg system_prompt] ;;
         process_conversation environ None openai_tools tool_to_server tools
           debug inputs
     end)
    (λ e, print_markup (chat_error_text e) (OutChatModeError e) ;;
          ret SessionEnded).

End Handler.

(** ** Classification of tool calls, as the dispatcher sees them *)

(** The tool name a call carries: [None] for a call without a usable name
    (missing attribute, [None] or the empty string). *)
Definition call_name (tool_call : ToolCall) : option string :=
  match function_name tool_call with
  | inr name => if truthy name then Some (py_str name) else None
  | inl _ => None
  end.

(** A malformed call: it carries no name. *)
Definition nameless (tool_call : ToolCall) : bool :=
  match call_name tool_call with
  | Some _ => false
  | None => true
  end.

(** A call whose name no backend registered. *)
Definition unknown (tool_to_server : gmap string (Stream * Stream))
    (tool_call : ToolCall) : bool :=
  match call_name tool_call with
  | Some n => match tool_to_server !! n with Some _ => false | None => true end
  | None => false
  end.

(** A call that reaches a backend. *)
Definition resolvable (tool_to_server : gmap string (Stream * Stream))
    (tool_call : ToolCall) : bool :=
  match call_name tool_call with
  | Some n => match tool_to_server !! n with Some _ => true | None => false end
  | None => false
  end.

(** The descriptor [tool] registers the name [n]. *)
Definition registers (n : string) (tool : Tool) : bool :=
  truthy (tool_name tool) && String.eqb (py_str (tool_name tool)) n.

(** The backend [d.1], listing the descriptors [d.2], exposes [n]. *)
Definition exposes (n : string) (d : (Stream * Stream) * list Tool) : bool :=
  existsb (registers n) d.2.

(** The nested loops of lines 24-30 applied to the lists the backends
    returned. *)
Definition register_all (ds : list ((Stream * Stream) * list Tool))
    (acc : list Tool * gmap string (Stream * Stream))
  : list Tool * gmap string (Stream * Stream) :=
  fold_left (λ a d, register_tools d.1 d.2 a) ds acc.

(** The list [tools] of line 22 once every backend has been visited: the
    named descriptors, in discovery order. *)
Definition discovered_tools (ds : list ((Stream * Stream) * list Tool))
  : list Tool :=
  flat_map (λ d, List.filter (λ tool, truthy (tool_name tool)) d.2) ds.

(** The [ToolResponse] built from a backend result, lines 145-169. *)
Definition result_response (tool_call : ToolCall) (tool_name : string)
    (result : CallResult) : ToolResponse :=
  if isError result
  then mkToolResponse (tc_id tool_call) tool_name
         (PyStr ("Error: " +:+
                 py_str (dict_get (error result) (PyStr "Unknown error"))))
  else mkToolResponse (tc_id tool_call) tool_name
         (dict_get (result_content result) (PyStr "No content")).

(** The assistant turn that records the requested calls, lines 90-104. *)
Definition assistant_request (response_content : pyval)
    (entries : list ToolCallEntry) : Message :=
  AssistantMsg
    (if truthy response_content then response_content
     else PyStr "I'll help you with that.")
    (Some entries).


Definition exits (input : UserInput) : bool :=
  match input with
  | inr line => is_exit_keyword (strip line)
  | inl _ => false
  end.

(** The UTF-8 bytes of a code point below U+10000. *)
Definition utf8 (cp : N) : string :=
  if (cp <? 128)%N then String (ascii_of_N cp) EmptyString
  else if (cp <? 2048)%N
  then String (ascii_of_N (192 + cp / 64))
         (String (ascii_of_N (128 + cp mod 64)) EmptyString)
  else String (ascii_of_N (224 + cp / 4096))
         (String (ascii_of_N (128 + (cp / 64) mod 64))
            (String (ascii_of_N (128 + cp mod 64)) EmptyString)).

(** The characters [str.isspace] holds for, by code point. *)
Definition whitespace : list string :=
  map utf8
    [9; 10; 11; 12; 13; 28; 29; 30; 31; 32; 133; 160; 5760;
     8192; 8193; 8194; 8195; 8196; 8197; 8198; 8199; 8200; 8201; 8202;
     8232; 8233; 8239; 8287; 12288]%N.

(** A byte that begins a character: not a UTF-8 continuation byte. *)
Definition start_byte (n : nat) : bool := (n <? 128)%nat || (192 <=? n)%nat.

(** The byte patterns [p2] and [p3] hold of bytes above the ASCII range
    only. *)
Definition high2 (p2 : nat → nat → bool) : Prop :=
  ∀ a b, p2 a b = true → (128 ≤ a)%nat ∧ (128 ≤ b)%nat.

Definition high3 (p3 : nat → nat → nat → bool) : Prop :=
  ∀ a b c, p3 a b c = true → (128 ≤ a)%nat ∧ (128 ≤ b)%nat ∧ (128 ≤ c)%nat.

(** The response [r] answers the call [tool_call]. *)
Definition answers (tool_call : ToolCall) (r : ToolResponse) : Prop :=
  tr_tool_call_id r = tc_id tool_call ∧ call_name tool_call = Some (tr_name r).

(** The text appended by the followup, line 184. *)
Definition followup_text (completion : Completion) : pyval :=
  py_or (dict_get (response completion) PyNone)
    (PyStr "I processed the tool responses but have nothing specific to add.").

(** The user turns of a history, in order. *)
Definition user_turns (h : list Message) : list string :=
  flat_map (λ msg, match msg with UserMsg text => [text] | _ => [] end) h.

(** The content a successful backend result ends up with in the history,
    lines 155 and 174-175. *)
Definition success_text (result : CallResult) : string :=
  match result_content result with
  | None => "No content"
  | Some PyNone => "No response from tool"
  | Some (PyStr text) => text
  end.

(** The call [c] goes to the backend registered for its tool. *)
Definition routed (tool_to_server : gmap string (Stream * Stream))
    (c : Call) : Prop :=
  match c with
  | CallTool n _ server => tool_to_server !! n = Some server
  | _ => False
  end.

(** A call the conversation loop may make: a completion call with the
    session's client and tool schema, or a backend call to the backend
    registered for the tool. *)
Definition session_call (client : LLMClient) (openai_tools : list json)
    (tool_to_server : gmap string (Stream * Stream)) (c : Call) : Prop :=
  match c with
  | CallCompletion client' _ tools' =>
      client' = client ∧ tools' = openai_tools
  | CallTool n _ server => tool_to_server !! n = Some server
  | CallFetchTools _ => False
  end.

Section Notions.
Context {W : Type} `{Ext : Externals W}.

(** The conversation grows: the history before [m] is a prefix of the
    history after it, whether [m] returns or raises. *)
Definition extends {A : Type} (m : M (W := W) A) : Prop :=
  ∀ st, history st `prefix_of` history (m st).1.

(** The backends [servers] answered, in order, with the lists paired to
    them in [ds], taking the world from [w] to [w']. *)
Inductive fetched : W → list (Stream * Stream) →
    list ((Stream * Stream) * list Tool) → W → Prop :=
| fetched_nil w : fetched w [] [] w
| fetched_cons w server servers w1 server_tools ds w2 :
    fetch_tools server w = (w1, inr server_tools) →
    fetched w1 servers ds w2 →
    fetched w (server :: servers) ((server, server_tools) :: ds) w2.

(** The argument map a call is dispatched with, lines 123-131. *)
Definition parsed_arguments (tool_call : ToolCall) : json :=
  match function_arguments tool_call with
  | inr a =>
      match json_loads (py_str (py_or a (PyStr "{}"))) with
      | inr arguments => arguments
      | inl _ => JObj []
      end
  | inl _ => JObj []
  end.

(** The backend calls the dispatch of [tool_calls] makes when nothing
    raises: one per call whose name resolves, in request order. *)
Definition backend_calls (tool_to_server : gmap string (Stream * Stream))
    (tool_calls : list ToolCall) : list Call :=
  flat_map
    (λ tool_call,
       match call_name tool_call with
       | Some n =>
           match tool_to_server !! n with
           | Some server => [CallTool n (parsed_arguments tool_call) server]
           | None => []
           end
       | None => []
       end) tool_calls.

(** The number of completion calls made so far. *)
Definition completions (st : State (W := W)) : nat :=
  List.length (List.filter is_completion_call (trace st)).

(** [m] makes at most [n] completion calls. *)
Definition costs {A : Type} (n : nat) (m : M (W := W) A) : Prop :=
  ∀ st, (completions (m st).1 ≤ completions st + n)%nat.

(** [m] takes every state to one related to it by [R], whether it
    returns or raises. *)
Definition transforms {A : Type} (R : State (W := W) → State (W := W) → Prop)
    (m : M (W := W) A) : Prop :=
  ∀ st, R st (m st).1.

(** From [a] to [b] the calls made all satisfy [P]. *)
Definition calls_only (P : Call → Prop) (a b : State (W := W)) : Prop :=
  ∃ calls, trace b = trace a ++ calls ∧ Forall P calls.

(** Lines 79-198: the round once the user turn is recorded. *)
Definition after_user_turn (client : LLMClient) (openai_tools : list json)
    (tool_to_server : gmap string (Stream * Stream)) (debug : bool)
  : M (W := W) Control :=
  bind (call_create_completion client openai_tools)
    (λ completion,
       match completion_tool_calls completion with
       | _ :: _ =>
           bind (handle_tool_calls client openai_tools tool_to_server debug
                   (dict_get (response completion) (PyStr "No response"))
                   (completion_tool_calls completion))
             (λ _, ret Continue)
       | [] =>
           bind (print (OutAssistant
                          (assistant_panel_text
                             (dict_get (response completion)
                                (PyStr "No response")))))
             (λ _, bind (append (AssistantMsg
                                   (dict_get (response completion)
                                      (PyStr "No response")) None))
                     (λ _, ret Continue))
       end).

(** The round on [line] reaches the dispatch of lines 106-169: the line
    is no exit keyword, its panel renders, the completion returns
    [completion], which requests tool calls, and the calls carry the
    attributes the assistant turn records as [entries]. *)
Definition reaches_dispatch (client : LLMClient) (openai_tools : list json)
    (line : string) (st : State (W := W)) (w1 : W) (completion : Completion)
    (entries : list ToolCallEntry) : Prop :=
  exits (inr line) = false
  ∧ markup_error (user_panel_text (strip line)) = None
  ∧ create_completion client (history st ++ [UserMsg (strip line)])
      openai_tools (world st) = (w1, inr completion)
  ∧ completion_tool_calls completion ≠ []
  ∧ tool_call_entries (completion_tool_calls completion) = inr entries.

(** The state in which that dispatch starts: the user turn and the
    assistant turn recording the requests are in the history. *)
Definition dispatch_state (client : LLMClient) (openai_tools : list json)
    (line : string) (st : State (W := W)) (w1 : W) (completion : Completion)
    (entries : list ToolCallEntry) : State (W := W) :=
  mkState
    (history st ++
     [UserMsg (strip line);
      assistant_request
        (dict_get (response completion) (PyStr "No response")) entries])
    w1
    (trace st ++
     [CallCompletion client (history st ++ [UserMsg (strip line)])
        openai_tools])
    (console st ++ [OutUser (user_panel_text (strip line))]).

(** A notice changes the console at most. *)
Definition quiet (a b : State (W := W)) : Prop :=
  history b = history a ∧ world b = world a ∧ trace b = trace a.

End Notions.
(** ** A scripted test double

    The model client replays a script of completions, the world; the
    backends and the parser are fixed tables.  The markup parser follows
    [rich.markup.render] on tags: a text is refused at a closing tag that
    has no open tag to close, with the message [rich] gives.  Backslash
    escapes and the handlers of [@] tags are left out, and positions count
    bytes. *)

Module Scripted.

Definition add_tool : Tool := mkTool (PyStr "add") (JObj []).
Definition echo_tool : Tool := mkTool (PyStr "echo") (JObj []).
Definition anonymous_tool : Tool := mkTool PyNone (JObj []).

Definition backend1 : Stream * Stream := (1, 2).
Definition backend2 : Stream * Stream := (3, 4).
Definition backend3 : Stream * Stream := (5, 6).
Definition backend4 : Stream * Stream := (7, 8).

Definition fetch (server : Stream * Stream)
    (w : list (Exception + Completion))
  : list (Exception + Completion) * (Exception + list Tool) :=
  match server with
  | (1, 2) => (w, inr [add_tool])
  | (3, 4) => (w, inr [add_tool; echo_tool])
  | (5, 6) => (w, inr [])
  | (7, 8) => (w, inr [anonymous_tool])
  | _ => (w, inl (OtherException "connection refused"))
  end.

Definition complete (client : LLMClient) (messages : list Message)
    (tools : list json) (w : list (Exception + Completion))
  : list (Exception + Completion) * (Exception + Completion) :=
  match w with
  | r :: w' => (w', r)
  | [] => (w, inl (OtherException "script exhausted"))
  end.

Definition call (tool : string) (arguments : json) (server : Stream * Stream)
    (w : list (Exception + Completion))
  : list (Exception + Completion) * (Exception + CallResult) :=
  if String.eqb tool "add"
  then (w, inr (mkCallResult false None (Some (PyStr "4"))))
  else if String.eqb tool "fail"
  then (w, inr (mkCallResult true (Some (PyStr "")) None))
  else if String.eqb tool "echo"
  then (w, inr (mkCallResult false None None))
  else (w, inl (OtherException "transport closed")).

Definition loads (s : string) : string + json :=
  if String.eqb s "{}" then inr (JObj [])
  else if String.eqb s "[]" then inr (JArr [])
  else inl "Expecting value".

(** A tag begins with a lower-case letter, [#], [/] or [@]. *)
Definition tag_start (c : ascii) : bool :=
  let n := nat_of_ascii c in
  ((97 <=? n)%nat && (n <=? 122)%nat)
  || (n =? 35)%nat || (n =? 47)%nat || (n =? 64)%nat.

(** The text of a tag before its [=]. *)
Fixpoint tag_name (t : string) : string :=
  match t with
  | EmptyString => EmptyString
  | String c rest =>
      if (nat_of_ascii c =? 61)%nat then EmptyString
      else String c (tag_name rest)
  end.

Definition normalize (name : string) : string := lower (strip name).

(** The stack of open tags, the latest first, without the latest tag
    called [name]. *)
Fixpoint close_tag (name : string) (stack : list string)
  : option (list string) :=
  match stack with
  | [] => None
  | t :: rest =>
      if String.eqb t name then Some rest
      else match close_tag name rest with
           | Some rest' => Some (t :: rest')
           | None => None
           end
  end.

Definition show_nat (n : nat) : string :=
  NilZero.string_of_uint (Nat.to_uint n).

(** [tag] is the position of the last [[] and the text read since, if a
    tag may be open there; [pos] is the position of the next character. *)
Fixpoint scan (stack : list string) (tag : option (nat * string)) (pos : nat)
    (s : string) : option string :=
  match s with
  | EmptyString => None
  | String c rest =>
      if (nat_of_ascii c =? 91)%nat
      then scan stack (Some (pos, EmptyString)) (S pos) rest
      else
        match tag with
        | None => scan stack None (S pos) rest
        | Some (start, t) =>
            if (nat_of_ascii c =? 93)%nat
            then
              match t with
              | EmptyString => scan stack None (S pos) rest
              | String a closing =>
                  if (nat_of_ascii a =? 47)%nat
                  then
                    if String.eqb (strip (tag_name closing)) EmptyString
                    then
                      match stack with
                      | [] =>
                          Some ("closing tag '[/]' at position "
                                +:+ show_nat start
                                +:+ " has nothing to close")
                      | _ :: stack' => scan stack' None (S pos) rest
                      end
                    else
                      match close_tag (normalize (tag_name closing)) stack with
                      | Some stack' => scan stack' None (S pos) rest
                      | None =>
                          Some ("closing tag '[" +:+ t +:+ "]' at position "
                                +:+ show_nat start
                                +:+ " doesn't match any open tag")
                      end
                  else scan (normalize (tag_name t) :: stack) None (S pos) rest
              end
            else
              match t with
              | EmptyString =>
                  if tag_start c
                  then scan stack (Some (start, String c EmptyString))
                         (S pos) rest
                  else scan stack None (S pos) rest
              | _ =>
                  scan stack (Some (start, t +:+ String c EmptyString))
                    (S pos) rest
              end
        end
  end.

Definition markup (text : string) : option string := scan [] None 0 text.

Definition text_of (v : option pyval) : string :=
  match v with
  | Some (PyStr s) => "'" +:+ s +:+ "'"
  | Some PyNone => "None"
  | None => "<missing>"
  end.

Definition show_function (f : FunctionObj) : string :=
  "Function(arguments=" +:+ text_of (fn_arguments f) +:+ ", name="
  +:+ text_of (fn_name f) +:+ ")".

Definition show_tool_call (tool_call : ToolCall) : string :=
  "ToolCall(id='" +:+ tc_id tool_call +:+ "', function="
  +:+ match tc_function tool_call with
      | Some f => show_function f
      | None => "<missing>"
      end +:+ ")".

Definition show_exception (e : Exception) : string :=
  match e with
  | AttributeError attribute =>
      "object has no attribute '" +:+ attribute +:+ "'"
  | JSONDecodeError msg => msg
  | MarkupError msg => msg
  | OtherException msg => msg
  end.

#[export] Instance externals : Externals (list (Exception + Completion)) := {
  fetch_tools := fetch;
  create_completion := complete;
  send_call_tool := call;
  json_loads := loads;
  generate_prompt := λ _, "You have tools.";
  convert_to_openai_tools := map inputSchema;
  markup_error := markup;
  str_exception := show_exception;
  str_tool_call := show_tool_call;
  str_function := show_function }.

Definition initial (script : list (Exception + Completion))
  : State (W := list (Exception + Completion)) :=
  mkState [] script [] [].

Definition in_chat (script : list (Exception + Completion))
  : State (W := list (Exception + Completion)) :=
  mkState [SystemMsg "You have tools."] script [] [].

Definition registry : gmap string (Stream * Stream) :=
  <["add" := backend1]> (<["fail" := backend1]> ∅).

Definition client : LLMClient := mkLLMClient "openai" "gpt-4o-mini".

(** The no-break space U+00A0, as its two UTF-8 bytes. *)
Definition nbsp : string :=
  String (ascii_of_nat 194) (String (ascii_of_nat 160) EmptyString).

Definition named_call (id name : string) (arguments : string) : ToolCall :=
  mkToolCall id (Some (mkFunction (Some (PyStr name)) (Some (PyStr arguments)))).


(** A round asking for [add], which is registered, and for [subtract],
    which is not. *)
Definition mixed_calls : list ToolCall :=
  [named_call "call_1" "add" "{}"; named_call "call_2" "subtract" "{}"].

Definition mixed_script : list (Exception + Completion) :=
  [inr (mkCompletion (Some (PyStr "")) mixed_calls);
   inr (mkCompletion (Some (PyStr "The sum is 4.")) [])].

(** A call to [add] whose raw arguments do not parse. *)
Definition garbled_call : ToolCall := named_call "call_1" "add" "{oops".

(** A call to [fail], whose backend sets the error flag and supplies an
    empty error string. *)
Definition failing_call : ToolCall := named_call "call_1" "fail" "{}".

(** A round asking for [fail]. *)
Definition failing_script : list (Exception + Completion) :=
  [inr (mkCompletion (Some (PyStr "")) [failing_call]);
   inr (mkCompletion (Some (PyStr "The tool failed.")) [])].

(** A round asking for [add] whose followup asks for [add] again. *)
Definition greedy_followup : Completion :=
  mkCompletion (Some (PyStr "")) [named_call "call_2" "add" "{}"].

Definition greedy_script : list (Exception + Completion) :=
  [inr (mkCompletion (Some (PyStr "sum")) [named_call "call_1" "add" "{}"]);
   inr greedy_followup].

(** A registry that also routes [echo], whose backend answers without
    content, and [boom], whose backend raises. *)
Definition wide_registry : gmap string (Stream * Stream) :=
  <["echo" := backend2]> (<["boom" := backend2]> registry).

(** A backend that does not answer. *)
Definition dead_backend : Stream * Stream := (9, 9).

(** A round in which [add] succeeds and [boom] raises. *)
Definition doomed_calls : list ToolCall :=
  [named_call "call_1" "add" "{}"; named_call "call_2" "boom" "{}"].

End Scripted.

(** * Properties *)

Section Properties.
Context {W : Type} `{Ext : Externals W}.

Implicit Types (st : State (W := W)).
Implicit Types (tool_to_server : gmap string (Stream * Stream)).

Lemma bind_lift_inr {A B : Type} (a : A) (k : A → M (W := W) B) :
  bind (lift (inr a)) k = k a.
Proof. reflexivity. Qed.

Lemma bind_lift_inl {A B : Type} (e : Exception) (k : A → M (W := W) B) :
  bind (lift (inl e)) k = raise e.
Proof. reflexivity. Qed.

Lemma state_eta st :
  mkState (history st) (world st) (trace st) (console st) = st.
Proof. by destruct st. Qed.

(** ** The conversation only grows *)

Lemma extends_ret {A : Type} (a : A) : extends (W := W) (ret a).
Proof. intros st. reflexivity. Qed.

Lemma extends_raise {A : Type} (e : Exception) :
  extends (W := W) (raise (A := A) e).
Proof. intros st. reflexivity. Qed.

Lemma extends_lift {A : Type} (r : Exception + A) : extends (W := W) (lift r).
Proof. intros st. reflexivity. Qed.

Lemma extends_print (o : Output) : extends (W := W) (print o).
Proof. intros st. reflexivity. Qed.

Lemma extends_print_markup (text : string) (o : Output) :
  extends (W := W) (print_markup text o).
Proof. intros st. unfold print_markup. by destruct (markup_error text). Qed.

Lemma extends_append (msg : Message) : extends (W := W) (append msg).
Proof. intros st. simpl. by apply prefix_app_r. Qed.

Lemma extends_bind {A B : Type} (m : M A) (k : A → M B) :
  extends m → (∀ a, extends (W := W) (k a)) →
  extends (W := W) (bind m k).
Proof.
  intros Hm Hk st. unfold bind. specialize (Hm st).
  destruct (m st) as [st' [e | a]]; simpl in *; [done |].
  etrans; [exact Hm | apply Hk].
Qed.

Lemma extends_try_except {A : Type} (m : M A) (h : Exception → M A) :
  extends m → (∀ e, extends (W := W) (h e)) →
  extends (W := W) (try_except m h).
Proof.
  intros Hm Hh st. unfold try_except. specialize (Hm st).
  destruct (m st) as [st' [e | a]]; simpl in *; [| done].
  etrans; [exact Hm | apply Hh].
Qed.

Lemma extends_call_create_completion client tools :
  extends (W := W) (call_create_completion client tools).
Proof.
  intros st. unfold call_create_completion.
  by destruct (create_completion _ _ _ _).
Qed.

Lemma extends_call_send_call_tool tool arguments server :
  extends (W := W) (call_send_call_tool tool arguments server).
Proof.
  intros st. unfold call_send_call_tool.
  by destruct (send_call_tool _ _ _ _).
Qed.

Create HintDb grows.
#[local] Hint Resolve extends_ret extends_raise extends_lift extends_print
  extends_print_markup extends_append extends_call_create_completion extends_call_send_call_tool
  : grows.
#[local] Hint Extern 2 (extends (W := W) (bind _ _)) =>
  apply extends_bind; [| intros ?] : grows.
#[local] Hint Extern 2 (extends (W := W) (try_except _ _)) =>
  apply extends_try_except; [| intros ?] : grows.
#[local] Hint Extern 3 (extends (W := W) (if ?b then _ else _)) => destruct b : grows.
#[local] Hint Extern 3 (extends (W := W) (match ?x with _ => _ end)) =>
  destruct x : grows.

Lemma extends_parse_arguments tool_name tool_call :
  extends (W := W) (parse_arguments tool_name tool_call).
Proof. unfold parse_arguments. auto 10 with grows. Qed.

Lemma extends_report_result debug tool_call tool_name result acc :
  extends (W := W) (report_result debug tool_call tool_name result acc).
Proof. unfold report_result. auto 10 with grows. Qed.

Lemma extends_dispatch_tool_call debug tool_to_server tool_call acc :
  extends (W := W) (dispatch_tool_call debug tool_to_server tool_call acc).
Proof.
  unfold dispatch_tool_call.
  pose proof extends_parse_arguments. pose proof extends_report_result.
  auto 20 with grows.
Qed.

Lemma extends_dispatch_tool_calls debug tool_to_server tool_calls acc :
  extends (W := W) (dispatch_tool_calls debug tool_to_server tool_calls acc).
Proof.
  revert acc. induction tool_calls as [| tool_call rest IH]; intros acc; simpl.
  - auto with grows.
  - apply extends_bind; [apply extends_dispatch_tool_call | auto].
Qed.

Lemma extends_append_tool_responses tool_responses :
  extends (W := W) (append_tool_responses tool_responses).
Proof.
  induction tool_responses as [| r rest IH]; simpl; auto with grows.
Qed.

Lemma extends_followup client tools : extends (W := W) (followup client tools).
Proof. unfold followup. auto 10 with grows. Qed.

Lemma extends_handle_tool_calls client tools tool_to_server debug rc tcs :
  extends (W := W) (handle_tool_calls client tools tool_to_server debug rc tcs).
Proof.
  unfold handle_tool_calls.
  pose proof extends_dispatch_tool_calls.
  pose proof extends_append_tool_responses.
  pose proof extends_followup.
  auto 10 with grows.
Qed.

Lemma extends_round client tools tool_to_server debug input :
  extends (W := W) (round client tools tool_to_server debug input).
Proof.
  unfold round, round_body, handle_round_error.
  pose proof extends_handle_tool_calls.
  auto 20 with grows.
Qed.

Lemma extends_conversation_loop client tools tool_to_server debug inputs :
  extends (W := W) (conversation_loop client tools tool_to_server debug inputs).
Proof.
  induction inputs as [| input rest IH]; simpl.
  - auto with grows.
  - apply extends_bind; [apply extends_round |].
    intros []; auto with grows.
Qed.

(** C8. The Conversation State is append-only: whatever the user types and
    whatever the model and the backends answer (completions, tool calls,
    exceptions), the history [process_conversation] leaves behind has the
    history it was given as a prefix, so a turn once appended is never
    changed, dropped or moved, and insertion order is chronological order. *)
Theorem conversation_append_only environ client openai_tools tool_to_server
    tools debug inputs st :
  history st `prefix_of`
    history (process_conversation environ client openai_tools tool_to_server
               tools debug inputs st).1.
Proof.
  unfold process_conversation. apply extends_conversation_loop.
Qed.

(** ** The registry *)

Lemma register_tools_lookup server server_tools acc n :
  (register_tools server server_tools acc).2 !! n
  = if existsb (registers n) server_tools then Some server else acc.2 !! n.
Proof.
  revert acc. induction server_tools as [| tool rest IH]; intros acc; [done |].
  cbn [register_tools existsb]. unfold registers at 1.
  destruct (truthy (tool_name tool)); rewrite IH; [| done].
  cbn [snd andb orb].
  destruct (existsb (registers n) rest); [by rewrite orb_true_r |].
  rewrite orb_false_r.
  destruct (String.eqb_spec (py_str (tool_name tool)) n) as [-> | Hne].
  - by rewrite lookup_insert_eq.
  - by rewrite lookup_insert_ne.
Qed.

Lemma register_tools_tools server server_tools acc :
  (register_tools server server_tools acc).1
  = acc.1 ++ List.filter (λ tool, truthy (tool_name tool)) server_tools.
Proof.
  revert acc. induction server_tools as [| tool rest IH]; intros acc.
  - simpl. by rewrite app_nil_r.
  - cbn [register_tools List.filter].
    destruct (truthy (tool_name tool)); rewrite IH; [| done].
    simpl. by rewrite <- app_assoc.
Qed.

Lemma register_all_lookup ds acc n :
  (register_all ds acc).2 !! n
  = match last (List.filter (exposes n) ds) with
    | Some d => Some d.1
    | None => acc.2 !! n
    end.
Proof.
  revert acc. induction ds as [| d ds IH]; intros acc; [done |].
  unfold register_all in *. cbn [fold_left List.filter].
  rewrite IH, register_tools_lookup. fold (exposes n d).
  destruct (exposes n d); [| done].
  rewrite last_cons. by destruct (last _).
Qed.

Lemma register_all_tools ds acc :
  (register_all ds acc).1 = acc.1 ++ discovered_tools ds.
Proof.
  revert acc. induction ds as [| d ds IH]; intros acc.
  - simpl. by rewrite app_nil_r.
  - unfold register_all in *. cbn [fold_left].
    rewrite IH, register_tools_tools. simpl. by rewrite <- app_assoc.
Qed.

Lemma discover_run servers ds acc st w' :
  fetched (world st) servers ds w' →
  discover servers acc st
  = (mkState (history st) w' (trace st ++ map CallFetchTools servers)
       (console st), inr (register_all ds acc)).
Proof.
  intros Hf. remember (world st) as w eqn:Hw. revert st acc Hw.
  induction Hf as [w | w server servers w1 server_tools ds w2 Hfetch _ IH];
    intros st acc ->.
  - simpl. unfold ret. by rewrite app_nil_r, state_eta.
  - cbn [discover]. unfold bind, call_fetch_tools. rewrite Hfetch.
    rewrite IH by done. simpl. by rewrite <- app_assoc.
Qed.

(** C4 (as amended). Registry construction never rejects a duplicate
    name: when the backends answer the discovery, it succeeds, and every
    name maps to the backend that registered it last, that is the last
    one, in connection order, listing a descriptor with that name; a name
    no backend lists is absent.  Each name present so maps to exactly one
    backend. *)
Theorem registry_last_registration_wins servers ds st w' :
  fetched (world st) servers ds w' →
  ∃ st' tools tool_to_server,
    discover servers ([], ∅) st = (st', inr (tools, tool_to_server)) ∧
    (∀ n, tool_to_server !! n = fst <$> last (List.filter (exposes n) ds)) ∧
    (∀ n server,
       tool_to_server !! n = Some server →
       ∃ server_tools,
         In (server, server_tools) ds ∧
         existsb (registers n) server_tools = true).
Proof.
  intros Hf. rewrite (discover_run _ _ _ _ _ Hf).
  destruct (register_all ds ([], ∅)) as [tools reg] eqn:Hreg.
  exists (mkState (history st) w' (trace st ++ map CallFetchTools servers)
            (console st)), tools, reg.
  assert (∀ n, reg !! n = fst <$> last (List.filter (exposes n) ds)) as Hlast.
  { intros n. pose proof (register_all_lookup ds ([], ∅) n) as Hl.
    rewrite Hreg in Hl. simpl in Hl. rewrite Hl. by destruct (last _). }
  split; [done |]. split; [done |].
  intros n server. rewrite Hlast.
  destruct (last (List.filter (exposes n) ds)) as [[server' server_tools] |]
    eqn:Hl; [| done].
  intros [= <-]. exists server_tools.
  apply last_Some_elem_of, list_elem_of_In, filter_In in Hl. exact Hl.
Qed.

(** C9. When the backends answer the discovery and no tool is discovered
    (every backend lists no descriptor, or only descriptors without a
    name), [handle_chat_mode] prints the no-tools notice and ends the
    session before the conversation loop: the history is untouched, no
    input is read, and the only calls made are the tool listings, so no
    completion call is ever made. *)
Theorem no_tools_no_session environ servers provider model debug inputs ds st
    w' :
  fetched (world st) servers ds w' →
  discovered_tools ds = [] →
  handle_chat_mode environ servers provider model debug inputs st
  = (mkState (history st) w' (trace st ++ map CallFetchTools servers)
       (console st ++ [OutNoTools]), inr SessionEnded)
  ∧ List.filter is_completion_call
      (trace (handle_chat_mode environ servers provider model debug inputs
                st).1)
    = List.filter is_completion_call (trace st).
Proof.
  intros Hf Hnone.
  assert (handle_chat_mode environ servers provider model debug inputs st
          = (mkState (history st) w' (trace st ++ map CallFetchTools servers)
               (console st ++ [OutNoTools]), inr SessionEnded)) as Heq.
  { unfold handle_chat_mode, try_except. unfold bind at 1.
    rewrite (discover_run _ _ _ _ _ Hf).
    rewrite register_all_tools, Hnone. reflexivity. }
  split; [done |]. rewrite Heq. simpl.
  rewrite List.filter_app.
  replace (List.filter is_completion_call (map CallFetchTools servers))
    with (@nil Call); [by rewrite app_nil_r |].
  clear. by induction servers.
Qed.

(** ** Discovery: what is advertised, what is routable, what can fail *)

Lemma registers_true n tool :
  registers n tool = true ↔ tool_name tool = PyStr n ∧ n ≠ "".
Proof.
  unfold registers, truthy. destruct (tool_name tool) as [| s]; simpl.
  - split; [done | by intros [[=] _]].
  - rewrite andb_true_iff, negb_true_iff, String.eqb_eq, String.eqb_neq.
    split; [by intros [Hs ->] | by intros [[= ->] Hn]].
Qed.

Lemma register_all_dom ds acc n :
  is_Some ((register_all ds acc).2 !! n) ↔
  is_Some (acc.2 !! n) ∨ ∃ d, In d ds ∧ exposes n d = true.
Proof.
  revert acc. induction ds as [| d ds IH]; intros acc.
  - simpl. split; [by left | by intros [? | (d & [] & _)]].
  - unfold register_all in *. cbn [fold_left]. rewrite IH.
    rewrite register_tools_lookup. fold (exposes n d).
    split.
    + intros [Hsome | (d' & Hin & Hd')].
      * destruct (exposes n d) eqn:Hd; [| by left].
        right. exists d. split; [by left | done].
      * right. exists d'. split; [by right | done].
    + intros [Hsome | (d' & [<- | Hin] & Hd')].
      * left. by destruct (exposes n d).
      * left. by rewrite Hd'.
      * right. eauto.
Qed.

Lemma in_discovered_tools ds tool :
  In tool (discovered_tools ds) ↔
  ∃ d, In d ds ∧ In tool d.2 ∧ truthy (tool_name tool) = true.
Proof.
  unfold discovered_tools. rewrite in_flat_map.
  split; intros (d & Hd & Ht); exists d; (split; [done |]).
  - by apply filter_In in Ht.
  - by apply filter_In.
Qed.

(** X7. What is advertised is what is routable: after a discovery the
    backends answered, the list of tools (later shown to the model) holds
    the descriptors with a non-empty name, in discovery order, duplicates
    included, and a name is routed by the registry exactly when one of the
    listed tools bears it. *)
Theorem registry_routes_the_advertised_tools servers ds st w' :
  fetched (world st) servers ds w' →
  ∃ st' tools tool_to_server,
    discover servers ([], ∅) st = (st', inr (tools, tool_to_server))
    ∧ tools = discovered_tools ds
    ∧ ∀ n, is_Some (tool_to_server !! n) ↔
           ∃ tool, In tool tools ∧ tool_name tool = PyStr n.
Proof.
  intros Hf. rewrite (discover_run _ _ _ _ _ Hf).
  pose proof (register_all_tools ds ([], ∅)) as Htools.
  pose proof (register_all_dom ds ([], ∅)) as Hdom.
  destruct (register_all ds ([], ∅)) as [tools reg]. simpl in *.
  eexists _, tools, reg. split; [done |]. split; [done |].
  intros n. rewrite Hdom, lookup_empty, Htools. split.
  - intros [[? [=]] | (d & Hd & Hexp)].
    apply existsb_exists in Hexp as (tool & Hin & [Hname Hne]%registers_true).
    exists tool. split; [| done].
    apply in_discovered_tools. exists d. repeat split; try done.
    rewrite Hname. simpl. by apply negb_true_iff, String.eqb_neq.
  - intros (tool & (d & Hd & Hin & Htruthy)%in_discovered_tools & Hname).
    right. exists d. split; [done |].
    apply existsb_exists. exists tool. split; [done |].
    apply registers_true. split; [done |].
    rewrite Hname in Htruthy. simpl in Htruthy.
    by apply negb_true_iff, String.eqb_neq in Htruthy.
Qed.

Lemma discover_fails before ds server after acc st w1 w2 e :
  fetched (world st) before ds w1 →
  fetch_tools server w1 = (w2, inl e) →
  discover (before ++ server :: after) acc st
  = (mkState (history st) w2
       (trace st ++ map CallFetchTools (before ++ [server])) (console st),
     inl e).
Proof.
  intros Hf. remember (world st) as w eqn:Hw. revert st acc Hw.
  induction Hf as [w | w s servers w' server_tools ds w'' Hfetch _ IH];
    intros st acc -> Hfail.
  - simpl. unfold bind, call_fetch_tools. by rewrite Hfail.
  - cbn [app discover]. unfold bind, call_fetch_tools. rewrite Hfetch.
    rewrite IH by done. simpl. by rewrite <- app_assoc.
Qed.

(** ** Configuration *)

(** C10. The [provider] and [model] arguments of [handle_chat_mode] (and
    the [client] argument of [process_conversation]) have no influence: for
    any two values of them, and any two environments that agree on
    [LLM_PROVIDER] and [LLM_MODEL], chat mode behaves the same and the loop
    runs with the same client, the one built from those two variables,
    with [openai] and [gpt-4o-mini] standing for an unset variable. *)
Theorem provider_and_model_come_from_environment environ1 environ2 :
  environ1 !! "LLM_PROVIDER" = environ2 !! "LLM_PROVIDER" →
  environ1 !! "LLM_MODEL" = environ2 !! "LLM_MODEL" →
  (∀ servers provider1 model1 provider2 model2 debug inputs st,
     handle_chat_mode environ1 servers provider1 model1 debug inputs st
     = handle_chat_mode environ2 servers provider2 model2 debug inputs st)
  ∧ (∀ client1 openai_tools tool_to_server tools debug inputs st,
       process_conversation environ1 client1 openai_tools tool_to_server
         tools debug inputs st
       = conversation_loop (make_client environ2) openai_tools tool_to_server
           debug inputs st)
  ∧ make_client environ1
    = mkLLMClient (default "openai" (environ1 !! "LLM_PROVIDER"))
        (default "gpt-4o-mini" (environ1 !! "LLM_MODEL")).
Proof.
  intros Hp Hm.
  assert (make_client environ1 = make_client environ2) as Hclient.
  { unfold make_client, getenv. by rewrite Hp, Hm. }
  split; [| split].
  - intros. unfold handle_chat_mode, process_conversation.
    by rewrite Hclient.
  - intros. unfold process_conversation. by rewrite Hclient.
  - unfold make_client, getenv, dict_get.
    by destruct (environ1 !! "LLM_PROVIDER"), (environ1 !! "LLM_MODEL").
Qed.

(** ** Relations every step of a round respects *)

Lemma round_body_exit client tools tool_to_server debug line st :
  is_exit_keyword (strip line) = true →
  round_body client tools tool_to_server debug (inr line) st
  = (add_output OutExiting st, inr Break).
Proof. intros Hexit. unfold round_body, bind, lift. by rewrite Hexit. Qed.

Lemma round_body_unfold client tools tool_to_server debug line :
  is_exit_keyword (strip line) = false →
  round_body client tools tool_to_server debug (inr line)
  = bind (print_markup (user_panel_text (strip line))
            (OutUser (user_panel_text (strip line))))
      (λ _, bind (append (UserMsg (strip line)))
              (λ _, after_user_turn client tools tool_to_server debug)).
Proof.
  intros Hexit. unfold round_body. by rewrite bind_lift_inr, Hexit.
Qed.

Section Stable.
Variable R : State (W := W) → State (W := W) → Prop.
Hypothesis R_refl : ∀ st, R st st.
Hypothesis R_trans : ∀ a b c, R a b → R b c → R a c.
Hypothesis R_output : ∀ o st, R st (add_output o st).
Hypothesis R_backend :
  ∀ w tool arguments server st,
    R st (set_world w (CallTool tool arguments server) st).
Hypothesis R_completion :
  ∀ w client tools st,
    R st (set_world w (CallCompletion client (history st) tools) st).
Hypothesis R_assistant :
  ∀ content tool_calls st,
    R st (set_history (history st ++ [AssistantMsg content tool_calls]) st).
Hypothesis R_tool_msg :
  ∀ id n content st,
    R st (set_history (history st ++ [ToolMsg id n content]) st).

Lemma stable_ret {A : Type} (a : A) : transforms R (ret a).
Proof. intros st. apply R_refl. Qed.

Lemma stable_raise {A : Type} (e : Exception) : transforms R (raise (A := A) e).
Proof. intros st. apply R_refl. Qed.

Lemma stable_lift {A : Type} (r : Exception + A) : transforms R (lift r).
Proof. intros st. apply R_refl. Qed.

Lemma stable_print (o : Output) : transforms R (print o).
Proof. intros st. apply R_output. Qed.

Lemma stable_print_markup (text : string) (o : Output) :
  transforms R (print_markup text o).
Proof.
  intros st. unfold print_markup.
  destruct (markup_error text); [apply R_refl | apply R_output].
Qed.

Lemma stable_bind {A B : Type} (m : M A) (k : A → M B) :
  transforms R m → (∀ a, transforms R (k a)) → transforms R (bind m k).
Proof.
  intros Hm Hk st. unfold bind. specialize (Hm st).
  destruct (m st) as [st' [e | a]]; simpl in *; [done |].
  eapply R_trans; [exact Hm | apply Hk].
Qed.

Lemma stable_try_except {A : Type} (m : M A) (h : Exception → M A) :
  transforms R m → (∀ e, transforms R (h e)) → transforms R (try_except m h).
Proof.
  intros Hm Hh st. unfold try_except. specialize (Hm st).
  destruct (m st) as [st' [e | a]]; simpl in *; [| done].
  eapply R_trans; [exact Hm | apply Hh].
Qed.

Lemma stable_send tool arguments server :
  transforms R (call_send_call_tool tool arguments server).
Proof.
  intros st. unfold call_send_call_tool.
  destruct (send_call_tool _ _ _ _). apply R_backend.
Qed.

Lemma stable_completion client tools :
  transforms R (call_create_completion client tools).
Proof.
  intros st. unfold call_create_completion.
  destruct (create_completion _ _ _ _). apply R_completion.
Qed.

Lemma stable_append_assistant content tool_calls :
  transforms R (append (AssistantMsg content tool_calls)).
Proof. intros st. apply R_assistant. Qed.

Lemma stable_append_tool id n content :
  transforms R (append (ToolMsg id n content)).
Proof. intros st. apply R_tool_msg. Qed.

Ltac stable :=
  repeat first
    [ apply stable_ret | apply stable_raise | apply stable_lift
    | apply stable_print | apply stable_print_markup | apply stable_send | apply stable_completion
    | apply stable_append_assistant | apply stable_append_tool
    | apply stable_bind; [| intros ?]
    | match goal with
      | |- transforms _ (if ?b then _ else _) => destruct b
      | |- transforms _ (match ?x with _ => _ end) => destruct x
      end ].

Lemma stable_parse_arguments tool_name tool_call :
  transforms R (parse_arguments tool_name tool_call).
Proof. unfold parse_arguments. stable. Qed.

Lemma stable_report_result debug tool_call tool_name result acc :
  transforms R (report_result debug tool_call tool_name result acc).
Proof. unfold report_result. stable. Qed.

Lemma stable_dispatch_tool_call debug tool_to_server tool_call acc :
  transforms R (dispatch_tool_call debug tool_to_server tool_call acc).
Proof.
  unfold dispatch_tool_call.
  destruct (function_name tool_call) as [[] | name]; stable;
    first [apply stable_parse_arguments | apply stable_report_result].
Qed.

Lemma stable_dispatch_tool_calls debug tool_to_server tool_calls acc :
  transforms R (dispatch_tool_calls debug tool_to_server tool_calls acc).
Proof.
  revert acc. induction tool_calls as [| tool_call rest IH]; intros acc; simpl.
  - apply stable_ret.
  - apply stable_bind; [apply stable_dispatch_tool_call | auto].
Qed.

Lemma stable_append_tool_responses tool_responses :
  transforms R (append_tool_responses tool_responses).
Proof.
  induction tool_responses as [| r rest IH]; simpl; [apply stable_ret |].
  apply stable_bind; [apply stable_append_tool | auto].
Qed.

Lemma stable_followup client tools : transforms R (followup client tools).
Proof. unfold followup. stable. Qed.

Lemma stable_handle_tool_calls client tools tool_to_server debug rc tcs :
  transforms R (handle_tool_calls client tools tool_to_server debug rc tcs).
Proof.
  unfold handle_tool_calls.
  apply stable_bind; [apply stable_lift | intros entries].
  apply stable_bind; [apply stable_append_assistant | intros _].
  apply stable_bind; [apply stable_dispatch_tool_calls | intros rs].
  apply stable_bind; [apply stable_append_tool_responses | intros _].
  apply stable_followup.
Qed.

Lemma stable_after_user_turn client tools tool_to_server debug :
  transforms R (after_user_turn client tools tool_to_server debug).
Proof.
  unfold after_user_turn.
  apply stable_bind; [apply stable_completion | intros completion].
  destruct (completion_tool_calls completion).
  - stable.
  - apply stable_bind; [apply stable_handle_tool_calls | intros _].
    apply stable_ret.
Qed.

End Stable.

(** ** How often the model is consulted *)

Lemma costs_weaken {A : Type} (a b : nat) (m : M (W := W) A) :
  (a ≤ b)%nat → costs a m → costs b m.
Proof. intros Hab Hm st. specialize (Hm st). lia. Qed.

Lemma costs_bind {A B : Type} (a b : nat) (m : M (W := W) A) (k : A → M B) :
  costs a m → (∀ x, costs b (k x)) → costs (a + b) (bind m k).
Proof.
  intros Hm Hk st. unfold bind. specialize (Hm st).
  destruct (m st) as [st' [e | x]]; simpl in *; [lia |].
  specialize (Hk x st'). lia.
Qed.

Lemma costs_try_except {A : Type} (a b : nat) (m : M (W := W) A)
    (h : Exception → M A) :
  costs a m → (∀ e, costs b (h e)) → costs (a + b) (try_except m h).
Proof.
  intros Hm Hh st. unfold try_except. specialize (Hm st).
  destruct (m st) as [st' [e | x]]; simpl in *; [| lia].
  specialize (Hh e st'). lia.
Qed.

Lemma costs_free {A : Type} (m : M (W := W) A) :
  transforms (λ a b, completions b = completions a) m → costs 0 m.
Proof. intros Hm st. rewrite (Hm st). lia. Qed.

Lemma completions_backend w tool arguments server st :
  completions (set_world w (CallTool tool arguments server) st)
  = completions st.
Proof.
  unfold completions. simpl. rewrite List.filter_app. simpl.
  by rewrite app_nil_r.
Qed.

Lemma costs_print (o : Output) : costs (W := W) 0 (print o).
Proof. intros st. unfold completions. simpl. lia. Qed.

Lemma costs_print_markup (text : string) (o : Output) :
  costs (W := W) 0 (print_markup text o).
Proof.
  intros st. unfold print_markup, completions.
  destruct (markup_error text); simpl; lia.
Qed.

Lemma costs_append (msg : Message) : costs (W := W) 0 (append msg).
Proof. intros st. unfold completions. simpl. lia. Qed.

Lemma costs_ret {A : Type} (a : A) : costs (W := W) 0 (ret a).
Proof. intros st. simpl. lia. Qed.

Lemma costs_completion client tools :
  costs 1 (call_create_completion client tools).
Proof.
  intros st. unfold call_create_completion, completions.
  destruct (create_completion _ _ _ _). simpl.
  rewrite List.filter_app, length_app. simpl. lia.
Qed.

Lemma dispatch_keeps_completions debug tool_to_server tool_calls acc :
  transforms (λ a b, completions b = completions a)
    (dispatch_tool_calls debug tool_to_server tool_calls acc).
Proof.
  apply stable_dispatch_tool_calls; try done.
  - intros a b c Hab Hbc. congruence.
  - intros. apply completions_backend.
Qed.

Lemma costs_dispatch_tool_calls debug tool_to_server tool_calls acc :
  costs 0 (dispatch_tool_calls debug tool_to_server tool_calls acc).
Proof. apply costs_free, dispatch_keeps_completions. Qed.

Lemma costs_append_tool_responses tool_responses :
  costs (W := W) 0 (append_tool_responses tool_responses).
Proof.
  apply costs_free, stable_append_tool_responses; try done.
  intros a b c Hab Hbc. congruence.
Qed.

Lemma costs_followup client tools : costs 1 (followup client tools).
Proof.
  unfold followup.
  apply (costs_bind 1 0); [apply costs_completion | intros completion].
  apply (costs_bind 0 0); [apply costs_print | intros _]. apply costs_append.
Qed.

Lemma costs_handle_tool_calls client tools tool_to_server debug rc tcs :
  costs 1 (handle_tool_calls client tools tool_to_server debug rc tcs).
Proof.
  unfold handle_tool_calls.
  apply (costs_bind 0 1); [intros st; simpl; lia | intros entries].
  apply (costs_bind 0 1); [apply costs_append | intros _].
  apply (costs_bind 0 1); [apply costs_dispatch_tool_calls | intros rs].
  apply (costs_bind 0 1); [apply costs_append_tool_responses | intros _].
  apply costs_followup.
Qed.

Lemma costs_after_user_turn client tools tool_to_server debug :
  costs 2 (after_user_turn client tools tool_to_server debug).
Proof.
  unfold after_user_turn.
  apply (costs_bind 1 1); [apply costs_completion | intros completion].
  destruct (completion_tool_calls completion).
  - apply (costs_weaken 0); [lia |].
    apply (costs_bind 0 0); [apply costs_print | intros _].
    apply (costs_bind 0 0); [apply costs_append | intros _]. apply costs_ret.
  - apply (costs_bind 1 0); [apply costs_handle_tool_calls | intros _].
    apply costs_ret.
Qed.

Lemma costs_round client tools tool_to_server debug input :
  costs 2 (round client tools tool_to_server debug input).
Proof.
  unfold round. apply (costs_try_except 2 0).
  - destruct input as [e | line].
    + unfold round_body. rewrite bind_lift_inl. intros st. simpl. lia.
    + destruct (is_exit_keyword (strip line)) eqn:Hexit.
      * intros st. rewrite round_body_exit by done.
        unfold completions. simpl. lia.
      * rewrite round_body_unfold by done.
        apply (costs_bind 0 2); [apply costs_print_markup | intros _].
        apply (costs_bind 0 2); [apply costs_append | intros _].
        apply costs_after_user_turn.
  - intros e. unfold handle_round_error.
    apply (costs_bind 0 0); [apply costs_print_markup | intros _].
    apply costs_ret.
Qed.

Lemma costs_conversation_loop client tools tool_to_server debug inputs :
  costs (2 * List.length inputs)
    (conversation_loop client tools tool_to_server debug inputs).
Proof.
  induction inputs as [| input rest IH]; [apply costs_ret |].
  cbn [conversation_loop].
  apply (costs_weaken (2 + 2 * List.length rest)); [simpl; lia |].
  apply costs_bind; [apply costs_round | intros []]; [| exact IH].
  apply (costs_weaken 0); [lia | apply costs_ret].
Qed.

(** X5. The model is consulted at most twice per round, whatever the
    completions request: once for the user's line and at most once more
    after the tool calls.  Over a session the number of completion calls
    is at most twice the number of inputs read. *)
Theorem at_most_two_completions_per_round environ openai_tools tool_to_server
    tools debug :
  (∀ client input st,
     (completions (round client openai_tools tool_to_server debug input st).1
      ≤ completions st + 2)%nat)
  ∧ (∀ client inputs st,
       (completions
          (process_conversation environ client openai_tools tool_to_server
             tools debug inputs st).1
        ≤ completions st + 2 * List.length inputs)%nat).
Proof.
  split.
  - intros. apply costs_round.
  - intros. unfold process_conversation. apply costs_conversation_loop.
Qed.

(** ** The dispatcher, call by call *)

Lemma function_name_error tool_call e :
  function_name tool_call = inl e → ∃ a, e = AttributeError a.
Proof.
  unfold function_name, getattr.
  destruct (tc_function tool_call) as [f |]; [destruct (fn_name f) |];
    intros [= <-]; eauto.
Qed.

Lemma function_arguments_error tool_call e :
  function_arguments tool_call = inl e → ∃ a, e = AttributeError a.
Proof.
  unfold function_arguments, getattr.
  destruct (tc_function tool_call) as [f |]; [destruct (fn_arguments f) |];
    intros [= <-]; eauto.
Qed.

Lemma call_name_Some tool_call n :
  call_name tool_call = Some n →
  ∃ v, function_name tool_call = inr v ∧ truthy v = true ∧ py_str v = n.
Proof.
  unfold call_name. destruct (function_name tool_call) as [e | v]; [done |].
  destruct (truthy v) eqn:Hv; [| done]. intros [= <-]. eauto.
Qed.

Lemma resolvable_Some tool_to_server tool_call :
  resolvable tool_to_server tool_call = true →
  ∃ n server, call_name tool_call = Some n ∧ tool_to_server !! n = Some server.
Proof.
  unfold resolvable. destruct (call_name tool_call) as [n |]; [| done].
  destruct (tool_to_server !! n) as [server |] eqn:Hreg; [| done]. eauto.
Qed.

Lemma not_resolvable tool_to_server tool_call :
  resolvable tool_to_server tool_call = false →
  call_name tool_call = None ∨
  ∃ n, call_name tool_call = Some n ∧ tool_to_server !! n = None.
Proof.
  unfold resolvable. destruct (call_name tool_call) as [n |]; [| by left].
  destruct (tool_to_server !! n) as [server |] eqn:Hreg; [done |]. eauto.
Qed.

Lemma result_response_answers tool_call n result :
  call_name tool_call = Some n →
  answers tool_call (result_response tool_call n result).
Proof. intros Hn. unfold answers, result_response. by destruct (isError _). Qed.

Lemma quiet_refl (st : State (W := W)) : quiet st st.
Proof. done. Qed.

Lemma quiet_trans (a b c : State (W := W)) :
  quiet a b → quiet b c → quiet a c.
Proof. intros (? & ? & ?) (? & ? & ?). repeat split; congruence. Qed.

Lemma quiet_print_markup text o : transforms quiet (print_markup text o).
Proof. intros st. unfold print_markup. by destruct (markup_error text). Qed.

Lemma quiet_parse_arguments tool_name tool_call :
  transforms quiet (parse_arguments tool_name tool_call).
Proof.
  unfold parse_arguments.
  destruct (function_arguments tool_call) as [[] | a]; try done.
  - apply stable_bind; [exact quiet_trans | done | intros f].
    apply stable_bind; [exact quiet_trans | apply quiet_print_markup | done].
  - destruct (json_loads _); [| done].
    apply stable_bind; [exact quiet_trans | apply quiet_print_markup | done].
Qed.

Lemma quiet_report_result debug tool_call tool_name result acc :
  transforms quiet (report_result debug tool_call tool_name result acc).
Proof.
  unfold report_result. destruct (isError result).
  - apply stable_bind; [exact quiet_trans | apply quiet_print_markup | done].
  - apply stable_bind; [exact quiet_trans | by destruct debug | done].
Qed.

Lemma parse_arguments_value tool_name tool_call st st' arguments :
  parse_arguments tool_name tool_call st = (st', inr arguments) →
  arguments = parsed_arguments tool_call.
Proof.
  unfold parse_arguments, parsed_arguments.
  destruct (function_arguments tool_call) as [[] | a]; try done.
  - unfold bind, lift, print_markup, ret.
    destruct (getattr _ _) as [e | f]; [done |].
    destruct (markup_error _); [done |]. by intros [= _ <-].
  - destruct (json_loads _) as [msg | arguments']; [| by intros [= _ <-]].
    unfold bind, print_markup, ret.
    destruct (markup_error _); [done |]. by intros [= _ <-].
Qed.

Lemma report_result_value debug tool_call tool_name result acc st st' rs :
  report_result debug tool_call tool_name result acc st = (st', inr rs) →
  rs = acc ++ [result_response tool_call tool_name result].
Proof.
  unfold report_result, result_response, bind, print_markup, print, ret.
  destruct (isError result).
  - destruct (markup_error _); [done |]. by intros [= _ <-].
  - destruct debug; by intros [= _ <-].
Qed.

(** The three ways a call is handled. *)
Lemma dispatch_nameless debug tool_to_server tool_call acc :
  call_name tool_call = None →
  ∃ text o,
    dispatch_tool_call debug tool_to_server tool_call acc
    = bind (print_markup text o) (λ _, ret acc).
Proof.
  unfold call_name, dispatch_tool_call.
  destruct (function_name tool_call) as [e | v] eqn:Hn.
  - intros _. apply function_name_error in Hn as [x ->]. eauto.
  - destruct (truthy v); [done |]. intros _. simpl. eauto.
Qed.

Lemma dispatch_unknown debug tool_to_server tool_call n acc :
  call_name tool_call = Some n →
  tool_to_server !! n = None →
  dispatch_tool_call debug tool_to_server tool_call acc
  = bind (print_markup (not_found_text n) (OutToolNotFound n))
      (λ _, ret acc).
Proof.
  intros (v & Hn & Hv & <-)%call_name_Some Hreg.
  unfold dispatch_tool_call. by rewrite Hn, Hv, Hreg.
Qed.

Lemma dispatch_resolved debug tool_to_server tool_call n server acc :
  call_name tool_call = Some n →
  tool_to_server !! n = Some server →
  dispatch_tool_call debug tool_to_server tool_call acc
  = bind (parse_arguments n tool_call)
      (λ arguments,
         bind (print (OutToolInvocation n arguments))
           (λ _, bind (call_send_call_tool n arguments server)
                   (λ result, report_result debug tool_call n result acc))).
Proof.
  intros (v & Hn & Hv & <-)%call_name_Some Hreg.
  unfold dispatch_tool_call. by rewrite Hn, Hv, Hreg.
Qed.

Lemma backend_calls_cons tool_to_server tool_call rest :
  backend_calls tool_to_server (tool_call :: rest)
  = backend_calls tool_to_server [tool_call]
    ++ backend_calls tool_to_server rest.
Proof. unfold backend_calls. simpl. by rewrite app_nil_r. Qed.

Lemma backend_calls_app tool_to_server l1 l2 :
  backend_calls tool_to_server (l1 ++ l2)
  = backend_calls tool_to_server l1 ++ backend_calls tool_to_server l2.
Proof. unfold backend_calls. apply flat_map_app. Qed.

Lemma backend_calls_routed tool_to_server tool_calls :
  Forall (routed tool_to_server) (backend_calls tool_to_server tool_calls).
Proof.
  induction tool_calls as [| tool_call rest IH]; [constructor |].
  rewrite backend_calls_cons. apply Forall_app. split; [| exact IH].
  unfold backend_calls. simpl.
  destruct (call_name tool_call) as [n |]; [| constructor].
  destruct (tool_to_server !! n) as [server |] eqn:Hreg; [| constructor].
  by repeat constructor.
Qed.

Lemma filter_cons_singleton {A : Type} (f : A → bool) (x : A) (l : list A) :
  List.filter f (x :: l) = List.filter f [x] ++ List.filter f l.
Proof. simpl. by destruct (f x). Qed.

(** What one call does: it leaves the history alone, makes its backend
    call or none, and when it returns it has made it and added the answer
    to the responses. *)
Lemma dispatch_tool_call_effect debug tool_to_server tool_call acc st :
  history (dispatch_tool_call debug tool_to_server tool_call acc st).1
  = history st
  ∧ ∃ calls,
      trace (dispatch_tool_call debug tool_to_server tool_call acc st).1
      = trace st ++ calls
      ∧ calls `prefix_of` backend_calls tool_to_server [tool_call]
      ∧ match (dispatch_tool_call debug tool_to_server tool_call acc st).2
        with
        | inr rs =>
            calls = backend_calls tool_to_server [tool_call]
            ∧ ∃ new,
                rs = acc ++ new
                ∧ Forall2 answers
                    (List.filter (resolvable tool_to_server) [tool_call]) new
        | inl _ => True
        end.
Proof.
  destruct (dispatch_tool_call debug tool_to_server tool_call acc st)
    as [stf rf] eqn:Hrun.
  cbn [fst snd]. unfold backend_calls, resolvable. simpl.
  destruct (call_name tool_call) as [n |] eqn:Hn;
    [destruct (tool_to_server !! n) as [server |] eqn:Hreg |].
  - rewrite (dispatch_resolved debug _ _ _ _ acc Hn Hreg) in Hrun.
    unfold bind at 1 in Hrun.
    pose proof (quiet_parse_arguments n tool_call st) as (Hh & Hw & Ht).
    destruct (parse_arguments n tool_call st) as [st1 [e | arguments]] eqn:Hp;
      cbn [fst snd] in *.
    { injection Hrun as <- <-. split; [done |]. exists [].
      rewrite app_nil_r. split; [done |]. split; [apply prefix_nil | done]. }
    apply parse_arguments_value in Hp as ->.
    unfold bind at 1, print in Hrun.
    unfold bind at 1, call_send_call_tool in Hrun. simpl in Hrun.
    rewrite Hw in Hrun.
    destruct (send_call_tool _ _ _ _) as [w [e | result]].
    { injection Hrun as <- <-. simpl. split; [done |]. eexists.
      rewrite Ht. split; [done |]. by split. }
    match type of Hrun with
    | report_result ?d ?tc ?m ?r ?a ?s = _ =>
        pose proof (quiet_report_result d tc m r a s) as (Hh' & _ & Ht')
    end.
    rewrite Hrun in Hh', Ht'. simpl in Hh', Ht'.
    split; [congruence |]. eexists. rewrite Ht', Ht. split; [done |].
    split; [done |]. destruct rf as [e | rs]; [done |].
    apply report_result_value in Hrun as ->.
    split; [done |]. eexists [_]. split; [done |].
    constructor; [by apply result_response_answers | constructor].
  - rewrite (dispatch_unknown debug _ _ _ acc Hn Hreg) in Hrun.
    unfold bind, print_markup, ret in Hrun.
    destruct (markup_error _); injection Hrun as <- <-; simpl;
      (split; [done |]); exists []; rewrite app_nil_r; repeat split; try done.
    exists []. by rewrite app_nil_r.
  - destruct (dispatch_nameless debug tool_to_server _ acc Hn)
      as (text & o & Heq).
    rewrite Heq in Hrun. unfold bind, print_markup, ret in Hrun.
    destruct (markup_error _); injection Hrun as <- <-; simpl;
      (split; [done |]); exists []; rewrite app_nil_r; repeat split; try done.
    exists []. by rewrite app_nil_r.
Qed.

Lemma dispatch_tool_calls_effect debug tool_to_server tool_calls acc st :
  history (dispatch_tool_calls debug tool_to_server tool_calls acc st).1
  = history st
  ∧ ∃ calls,
      trace (dispatch_tool_calls debug tool_to_server tool_calls acc st).1
      = trace st ++ calls
      ∧ calls `prefix_of` backend_calls tool_to_server tool_calls
      ∧ match (dispatch_tool_calls debug tool_to_server tool_calls acc st).2
        with
        | inr rs =>
            calls = backend_calls tool_to_server tool_calls
            ∧ ∃ new,
                rs = acc ++ new
                ∧ Forall2 answers
                    (List.filter (resolvable tool_to_server) tool_calls) new
        | inl _ => True
        end.
Proof.
  revert acc st. induction tool_calls as [| tool_call rest IH]; intros acc st.
  - split; [done |]. exists []. simpl. rewrite app_nil_r.
    repeat split; try done. exists []. by rewrite app_nil_r.
  - cbn [dispatch_tool_calls]. unfold bind.
    destruct (dispatch_tool_call_effect debug tool_to_server tool_call acc st)
      as (Hh & calls1 & Ht & Hpre & Hret).
    rewrite backend_calls_cons, filter_cons_singleton.
    destruct (dispatch_tool_call _ _ _ _ st) as [st1 [e | rs1]];
      cbn [fst snd] in *.
    + split; [done |]. exists calls1. split; [done |].
      split; [by apply prefix_app_r | done].
    + destruct Hret as (-> & new1 & -> & Hnew1).
      destruct (IH (acc ++ new1) st1) as (Hh' & calls2 & Ht' & Hpre' & Hret').
      split; [congruence |].
      exists (backend_calls tool_to_server [tool_call] ++ calls2).
      split; [by rewrite Ht', Ht, app_assoc |].
      split; [by apply prefix_app |].
      destruct (dispatch_tool_calls _ _ _ _ st1).2 as [e | rs]; [done |].
      destruct Hret' as (-> & new2 & -> & Hnew2). split; [done |].
      exists (new1 ++ new2). split; [by rewrite app_assoc |].
      by apply Forall2_app.
Qed.

Lemma call_classes tool_to_server tool_calls :
  List.length (List.filter (resolvable tool_to_server) tool_calls)
  + List.length (List.filter nameless tool_calls)
  + List.length (List.filter (unknown tool_to_server) tool_calls)
  = List.length tool_calls.
Proof.
  induction tool_calls as [| tool_call rest IH]; [done |].
  unfold resolvable, nameless, unknown in *. simpl.
  destruct (call_name tool_call) as [n |];
    [destruct (tool_to_server !! n) |]; simpl; lia.
Qed.

Lemma append_tool_responses_run tool_responses st :
  append_tool_responses tool_responses st
  = (set_history (history st ++ map tool_message tool_responses) st, inr tt).
Proof.
  revert st. induction tool_responses as [| r rest IH]; intros st.
  - simpl. unfold ret, set_history. by rewrite app_nil_r, state_eta.
  - simpl. unfold bind, append. rewrite IH. simpl.
    unfold set_history. simpl. by rewrite <- app_assoc.
Qed.

(** ** The calls a session makes *)

Section SessionCalls.
Variables (client : LLMClient) (openai_tools : list json).
Variable tool_to_server : gmap string (Stream * Stream).

Let R := calls_only (W := W) (session_call client openai_tools tool_to_server).

Lemma calls_refl st : R st st.
Proof. exists []. by rewrite app_nil_r. Qed.

Lemma calls_trans a b c : R a b → R b c → R a c.
Proof.
  intros (l1 & H1 & HP1) (l2 & H2 & HP2). exists (l1 ++ l2).
  split; [by rewrite H2, H1, app_assoc | by apply Forall_app].
Qed.

Lemma calls_silent a b : trace b = trace a → R a b.
Proof. intros Heq. exists []. by rewrite app_nil_r. Qed.

Lemma calls_print_markup text o : transforms R (print_markup text o).
Proof.
  intros st. unfold print_markup.
  destruct (markup_error text); by apply calls_silent.
Qed.

Lemma calls_completion :
  transforms R (call_create_completion client openai_tools).
Proof.
  intros st. unfold call_create_completion.
  destruct (create_completion _ _ _ _). eexists [_]. split; [done |].
  by repeat constructor.
Qed.

Lemma calls_dispatch_tool_calls debug tool_calls acc :
  transforms R (dispatch_tool_calls debug tool_to_server tool_calls acc).
Proof.
  intros st.
  destruct (dispatch_tool_calls_effect debug tool_to_server tool_calls acc st)
    as (_ & calls & Ht & [rest Hrest] & _).
  exists calls. split; [done |].
  pose proof (backend_calls_routed tool_to_server tool_calls) as Hrouted.
  rewrite Hrest in Hrouted. apply Forall_app in Hrouted as [Hcalls _].
  eapply Forall_impl; [exact Hcalls |]. by intros [].
Qed.

Lemma calls_handle_tool_calls debug rc tool_calls :
  transforms R
    (handle_tool_calls client openai_tools tool_to_server debug rc tool_calls).
Proof.
  unfold handle_tool_calls.
  apply stable_bind; [exact calls_trans | | intros entries].
  { intros st. apply calls_refl. }
  apply stable_bind; [exact calls_trans | | intros _].
  { intros st. by apply calls_silent. }
  apply stable_bind; [exact calls_trans | | intros rs].
  { apply calls_dispatch_tool_calls. }
  apply stable_bind; [exact calls_trans | | intros _].
  { apply stable_append_tool_responses;
      [exact calls_refl | exact calls_trans |].
    intros. by apply calls_silent. }
  unfold followup.
  apply stable_bind; [exact calls_trans | apply calls_completion |].
  intros completion.
  apply stable_bind; [exact calls_trans | | intros _];
    intros st; by apply calls_silent.
Qed.

Lemma calls_after_user_turn debug :
  transforms R (after_user_turn client openai_tools tool_to_server debug).
Proof.
  unfold after_user_turn.
  apply stable_bind; [exact calls_trans | apply calls_completion |].
  intros completion. destruct (completion_tool_calls completion).
  - apply stable_bind; [exact calls_trans | | intros _];
      [intros st; by apply calls_silent |].
    apply stable_bind; [exact calls_trans | | intros _];
      intros st; by apply calls_silent.
  - apply stable_bind; [exact calls_trans | | intros _];
      [apply calls_handle_tool_calls | intros st; apply calls_refl].
Qed.

Lemma calls_round debug input :
  transforms R (round client openai_tools tool_to_server debug input).
Proof.
  unfold round. apply stable_try_except; [exact calls_trans | |].
  - destruct input as [e | line].
    + intros st. apply calls_refl.
    + destruct (is_exit_keyword (strip line)) eqn:Hexit.
      * intros st. rewrite round_body_exit by done. by apply calls_silent.
      * rewrite round_body_unfold by done.
        apply stable_bind; [exact calls_trans | | intros _];
          [apply calls_print_markup |].
        apply stable_bind; [exact calls_trans | | intros _];
          [intros st; by apply calls_silent |].
        apply calls_after_user_turn.
  - intros e. unfold handle_round_error.
    apply stable_bind; [exact calls_trans | | intros _];
      [apply calls_print_markup | intros st; apply calls_refl].
Qed.

Lemma calls_conversation_loop debug inputs :
  transforms R
    (conversation_loop client openai_tools tool_to_server debug inputs).
Proof.
  induction inputs as [| input rest IH]; [intros st; apply calls_refl |].
  cbn [conversation_loop].
  apply stable_bind; [exact calls_trans | apply calls_round |].
  intros []; [intros st; apply calls_refl | exact IH].
Qed.

End SessionCalls.

(** X14. Whatever the model and the backends answer, the calls the
    conversation loop makes are of two kinds only: completion calls, each
    with the client built from the environment and the tool schema the
    loop was given, and backend calls, each to the backend the registry
    holds for the tool called.  The loop never lists the tools again and
    never calls a backend for a tool it does not route. *)
Theorem session_calls_are_completions_or_routed environ client openai_tools
    tool_to_server tools debug inputs st :
  ∃ calls,
    trace (process_conversation environ client openai_tools tool_to_server
             tools debug inputs st).1
    = trace st ++ calls
    ∧ Forall (session_call (make_client environ) openai_tools tool_to_server)
        calls.
Proof.
  unfold process_conversation.
  apply (calls_conversation_loop (make_client environ) openai_tools
           tool_to_server debug inputs st).
Qed.

(** ** A round that dispatches tool calls *)

Lemma quiet_handle_round_error e : transforms quiet (handle_round_error e).
Proof.
  unfold handle_round_error.
  apply stable_bind; [exact quiet_trans | apply quiet_print_markup | done].
Qed.

Lemma bind_assoc {A B C : Type} (m : M (W := W) A) (f : A → M B)
    (g : B → M C) st :
  bind (bind m f) g st = bind m (λ x, bind (f x) g) st.
Proof. unfold bind. by destruct (m st) as [st' [e | a]]. Qed.

(** Lines 171-190 once the dispatch has returned [rs]. *)
Lemma after_dispatch_run client tools rs st2 w r :
  create_completion client (history st2 ++ map tool_message rs) tools
    (world st2) = (w, r) →
  bind (bind (append_tool_responses rs) (λ _, followup client tools))
    (λ _, ret Continue) st2
  = let messages := history st2 ++ map tool_message rs in
    match r with
    | inl e =>
        (mkState messages w
           (trace st2 ++ [CallCompletion client messages tools])
           (console st2), inl e)
    | inr completion =>
        (mkState (messages ++ [AssistantMsg (followup_text completion) None])
           w (trace st2 ++ [CallCompletion client messages tools])
           (console st2 ++
            [OutAssistant (assistant_panel_text (followup_text completion))]),
         inr Continue)
    end.
Proof.
  intros Hc. unfold bind at 1 2. rewrite append_tool_responses_run.
  unfold followup, bind, call_create_completion, print, append, ret,
    set_history, set_world, add_output; simpl.
  rewrite Hc. by destruct r.
Qed.

Lemma round_body_to_dispatch client tools tool_to_server debug line st w1
    completion entries :
  reaches_dispatch client tools line st w1 completion entries →
  round_body client tools tool_to_server debug (inr line) st
  = bind (dispatch_tool_calls debug tool_to_server
            (completion_tool_calls completion) [])
      (λ rs, bind (bind (append_tool_responses rs)
                     (λ _, followup client tools))
               (λ _, ret Continue))
      (dispatch_state client tools line st w1 completion entries).
Proof.
  intros (Hexit & Hrender & Hc & Hcalls & Hentries). simpl in Hexit.
  rewrite round_body_unfold by done.
  unfold bind at 1, print_markup. rewrite Hrender.
  unfold bind at 1, append. unfold after_user_turn.
  unfold bind at 1, call_create_completion. simpl. rewrite Hc.
  destruct (completion_tool_calls completion) as [| tc tcs] eqn:Hreq;
    [done |].
  unfold handle_tool_calls. rewrite Hentries, bind_lift_inr.
  rewrite bind_assoc. unfold bind at 1, append. rewrite bind_assoc.
  fold (assistant_request
          (dict_get (response completion) (PyStr "No response")) entries).
  f_equal. unfold dispatch_state, set_history, set_world. simpl.
  by rewrite <- app_assoc.
Qed.

(** The round from the dispatch on: what it does is decided by the
    dispatch and, when that returns, by the followup completion. *)
Lemma round_after_dispatch client tools tool_to_server debug line st w1
    completion entries :
  reaches_dispatch client tools line st w1 completion entries →
  let st1 := dispatch_state client tools line st w1 completion entries in
  round client tools tool_to_server debug (inr line) st
  = match dispatch_tool_calls debug tool_to_server
            (completion_tool_calls completion) [] st1 with
    | (st2, inl e) => handle_round_error e st2
    | (st2, inr rs) =>
        let messages := history st1 ++ map tool_message rs in
        match create_completion client messages tools (world st2) with
        | (w, inl e) =>
            handle_round_error e
              (mkState messages w
                 (trace st2 ++ [CallCompletion client messages tools])
                 (console st2))
        | (w, inr followup_completion) =>
            (mkState
               (messages ++
                [AssistantMsg (followup_text followup_completion) None])
               w (trace st2 ++ [CallCompletion client messages tools])
               (console st2 ++
                [OutAssistant
                   (assistant_panel_text
                      (followup_text followup_completion))]),
             inr Continue)
        end
    end.
Proof.
  intros Hreach st1. unfold round, try_except.
  rewrite (round_body_to_dispatch _ _ _ _ _ _ _ _ _ Hreach). fold st1.
  unfold bind at 1.
  pose proof (dispatch_tool_calls_effect debug tool_to_server
                (completion_tool_calls completion) [] st1) as [Hh _].
  destruct (dispatch_tool_calls _ _ _ _ st1) as [st2 [e | rs]]; [done |].
  cbn [fst] in Hh. cbn zeta. rewrite <- Hh.
  destruct (create_completion client (history st2 ++ map tool_message rs)
              tools (world st2)) as [w r] eqn:Hc.
  rewrite (after_dispatch_run _ _ _ _ _ _ Hc). by destruct r.
Qed.

(** The turns a round appends once it has reached the dispatch: the
    ToolResult turns of the responses when the dispatch returns, none when
    it raises, and after them at most the assistant turn of the
    followup. *)
Lemma round_history_after_dispatch client tools tool_to_server debug line st
    w1 completion entries :
  reaches_dispatch client tools line st w1 completion entries →
  let st1 := dispatch_state client tools line st w1 completion entries in
  match dispatch_tool_calls debug tool_to_server
          (completion_tool_calls completion) [] st1 with
  | (_, inl _) =>
      history (round client tools tool_to_server debug (inr line) st).1
      = history st1
  | (_, inr rs) =>
      ∃ tail,
        history (round client tools tool_to_server debug (inr line) st).1
        = history st1 ++ map tool_message rs ++ tail
        ∧ List.filter is_tool_msg tail = []
  end.
Proof.
  intros Hreach st1.
  rewrite (round_after_dispatch _ _ _ _ _ _ _ _ _ Hreach). fold st1.
  pose proof (dispatch_tool_calls_effect debug tool_to_server
                (completion_tool_calls completion) [] st1) as [Hh _].
  destruct (dispatch_tool_calls _ _ _ _ st1) as [st2 [e | rs]];
    cbn [fst] in Hh.
  - destruct (quiet_handle_round_error e st2) as (-> & _). done.
  - cbn zeta.
    destruct (create_completion _ _ _ _) as [w [e | c2]].
    + destruct (quiet_handle_round_error e
                  (mkState (history st1 ++ map tool_message rs) w
                     (trace st2 ++
                      [CallCompletion client
                         (history st1 ++ map tool_message rs) tools])
                     (console st2))) as (-> & _).
      exists []. simpl. by rewrite app_nil_r.
    + eexists [_]. simpl. by rewrite <- app_assoc.
Qed.

(** C6. In a round that dispatched tool calls, the followup completion is
    final.  When the round has reached the dispatch, the dispatch has
    returned and the followup completion returns, whatever tool calls the
    followup response itself carries, the round ends there and the loop
    goes on: one assistant turn holding the followup text (or the default
    text when the response is missing, [None] or empty) is appended after
    the ToolResult turns, the followup completion is the last call of the
    round, and the backend calls of the round are those of the first
    completion's requests, so no second dispatch runs. *)
Theorem followup_is_final client openai_tools tool_to_server debug line st w1
    completion entries st2 rs w followup_completion :
  reaches_dispatch client openai_tools line st w1 completion entries →
  let st1 := dispatch_state client openai_tools line st w1 completion entries in
  dispatch_tool_calls debug tool_to_server (completion_tool_calls completion)
    [] st1 = (st2, inr rs) →
  create_completion client (history st1 ++ map tool_message rs) openai_tools
    (world st2) = (w, inr followup_completion) →
  let messages := history st1 ++ map tool_message rs in
  let text :=
    if truthy (dict_get (response followup_completion) PyNone)
    then dict_get (response followup_completion) PyNone
    else PyStr "I processed the tool responses but have nothing specific to add." in
  round client openai_tools tool_to_server debug (inr line) st
  = (mkState (messages ++ [AssistantMsg text None]) w
       (trace st2 ++ [CallCompletion client messages openai_tools])
       (console st2 ++ [OutAssistant (py_str text)]),
     inr Continue)
  ∧ trace st2
    = trace st1
      ++ backend_calls tool_to_server (completion_tool_calls completion).
Proof.
  intros Hreach st1 Hdispatch Hc messages text. split.
  - rewrite (round_after_dispatch _ _ _ _ _ _ _ _ _ Hreach). fold st1.
    rewrite Hdispatch. cbn zeta. rewrite Hc. fold messages.
    replace (followup_text followup_completion) with text by done.
    replace (assistant_panel_text text) with (py_str text); [done |].
    unfold assistant_panel_text, text.
    by destruct (truthy (dict_get (response followup_completion) PyNone))
      eqn:Ht; [rewrite Ht |].
  - pose proof (dispatch_tool_calls_effect debug tool_to_server
                  (completion_tool_calls completion) [] st1)
      as (_ & calls & Ht & _ & Hret).
    rewrite Hdispatch in Ht, Hret. simpl in Ht, Hret.
    destruct Hret as [-> _]. exact Ht.
Qed.

(** C2 (as amended). In a round that has reached the dispatch of the N
    tool calls the model emitted: when the dispatch returns, the
    ToolResult turns appended are, in request order, one per call whose
    name is non-empty and registered, each with the id and the name of
    its request; their number is N minus the nameless calls minus the
    calls naming a tool no backend registered; they follow the assistant
    turn recording the requests, whether or not the followup completion
    then succeeds.  When an exception is raised during the dispatch, no
    ToolResult turn is appended. *)
Theorem tool_results_follow_requests client openai_tools tool_to_server debug
    line st w1 completion entries :
  reaches_dispatch client openai_tools line st w1 completion entries →
  let tool_calls := completion_tool_calls completion in
  let st1 := dispatch_state client openai_tools line st w1 completion entries in
  let after :=
    history (round client openai_tools tool_to_server debug (inr line) st).1 in
  match dispatch_tool_calls debug tool_to_server tool_calls [] st1 with
  | (_, inr rs) =>
      (∃ tail,
         after = history st1 ++ map tool_message rs ++ tail
         ∧ List.filter is_tool_msg tail = [])
      ∧ Forall2 answers (List.filter (resolvable tool_to_server) tool_calls) rs
      ∧ map tr_tool_call_id rs
        = map tc_id (List.filter (resolvable tool_to_server) tool_calls)
      ∧ List.length (map tool_message rs)
        = List.length tool_calls
          - List.length (List.filter nameless tool_calls)
          - List.length (List.filter (unknown tool_to_server) tool_calls)
  | (_, inl _) => after = history st1
  end.
Proof.
  intros Hreach tool_calls st1 after.
  pose proof (round_history_after_dispatch client openai_tools tool_to_server
                debug line st w1 completion entries Hreach) as Hround.
  pose proof (dispatch_tool_calls_effect debug tool_to_server tool_calls []
                st1) as (_ & calls & _ & _ & Hret).
  cbn zeta in Hround. fold st1 tool_calls in Hround.
  destruct (dispatch_tool_calls debug tool_to_server tool_calls [] st1)
    as [st2 [e | rs]]; [exact Hround |].
  simpl in Hret. destruct Hret as (_ & new & [= ->] & Hnew).
  split; [exact Hround |]. split; [done |]. split.
  - clear Hround. induction Hnew as [| tc r tcs rs' [Hid _] _ IH]; [done |].
    simpl. by rewrite Hid, IH.
  - pose proof (call_classes tool_to_server tool_calls) as Hcount.
    apply Forall2_length in Hnew. rewrite length_map. lia.
Qed.

(** ** Calls the registry cannot route *)



(** ** Arguments that do not parse, and backend errors *)

(** C3 (as amended). When the raw argument string of a call whose name
    resolves does not parse and the notice of the parse error renders, the
    notice is printed and the call is dispatched all the same: the backend
    is invoked once, with the empty argument map, and the outcome of the
    call is the backend's exception, or what lines 145-169 make of the
    backend's result; in particular a result without error flag gives a
    response with the backend's content, not an error carrying the parse
    message. *)
Theorem unparsable_arguments_become_empty debug tool_to_server tool_call n
    server a msg acc st :
  call_name tool_call = Some n →
  tool_to_server !! n = Some server →
  function_arguments tool_call = inr a →
  json_loads (py_str (py_or a (PyStr "{}"))) = inl msg →
  markup_error (parse_error_text n msg) = None →
  dispatch_tool_call debug tool_to_server tool_call acc st
  = (let st' w :=
       mkState (history st) w (trace st ++ [CallTool n (JObj []) server])
         (console st ++
          [OutArgParseError n msg; OutToolInvocation n (JObj [])]) in
     match send_call_tool n (JObj []) server (world st) with
     | (w, inl e) => (st' w, inl e)
     | (w, inr result) => report_result debug tool_call n result acc (st' w)
     end)
  ∧ ∀ result st0,
      isError result = false →
      (report_result debug tool_call n result acc st0).2
      = inr (acc ++
             [mkToolResponse (tc_id tool_call) n
                (dict_get (result_content result) (PyStr "No content"))]).
Proof.
  intros Hn Hreg Ha Hparse Hrender. split.
  - rewrite (dispatch_resolved debug _ _ _ _ acc Hn Hreg).
    unfold bind at 1, parse_arguments. rewrite Ha, Hparse.
    unfold bind at 1, print_markup. rewrite Hrender. unfold ret.
    unfold bind at 1, print. unfold bind at 1, call_send_call_tool.
    unfold add_output, set_world. simpl. rewrite <- app_assoc. simpl.
    by destruct (send_call_tool _ _ _ _) as [w [e | result]].
  - intros result st0 Hok. unfold report_result, bind, print, ret.
    rewrite Hok. by destruct debug.
Qed.

Lemma dispatch_tool_calls_app debug tool_to_server l1 l2 acc st :
  dispatch_tool_calls debug tool_to_server (l1 ++ l2) acc st
  = bind (dispatch_tool_calls debug tool_to_server l1 acc)
      (λ acc', dispatch_tool_calls debug tool_to_server l2 acc') st.
Proof.
  revert acc st. induction l1 as [| tc l1 IH]; intros acc st; [done |].
  cbn [app dispatch_tool_calls]. rewrite bind_assoc. unfold bind at 1 2.
  destruct (dispatch_tool_call _ _ _ _ st) as [st' [e | acc']]; [done |].
  apply IH.
Qed.

(** A call whose name resolves returns only with the response built from
    the result its backend gave. *)
Lemma dispatch_resolved_value debug tool_to_server tool_call n server acc st
    st' rs :
  call_name tool_call = Some n →
  tool_to_server !! n = Some server →
  dispatch_tool_call debug tool_to_server tool_call acc st = (st', inr rs) →
  ∃ w result,
    send_call_tool n (parsed_arguments tool_call) server (world st)
    = (w, inr result)
    ∧ rs = acc ++ [result_response tool_call n result].
Proof.
  intros Hn Hreg. rewrite (dispatch_resolved debug _ _ _ _ acc Hn Hreg).
  unfold bind at 1.
  pose proof (quiet_parse_arguments n tool_call st) as (_ & Hw & _).
  destruct (parse_arguments n tool_call st) as [st1 [e | arguments]] eqn:Hp;
    [done |].
  apply parse_arguments_value in Hp as ->. cbn [fst] in Hw.
  unfold bind at 1, print. unfold bind at 1, call_send_call_tool. simpl.
  rewrite Hw.
  destruct (send_call_tool _ _ _ _) as [w [e | result]]; [done |].
  intros Hr%report_result_value. eauto.
Qed.

(** C5 (as amended). In a round that has reached the dispatch and whose
    dispatch returns, a call whose backend result has the error flag set
    yields the response whose content is the text [Error: ] followed by
    the backend's error value when the result has an [error] key
    (whatever it holds, the empty string included) and by [Unknown error]
    when it has none; the response stands at the call's place among the
    responses, and the round appends it to the history as a ToolResult
    turn with that very content. *)
Theorem backend_error_is_reported client openai_tools tool_to_server debug
    line st w1 completion entries before tool_call after sta acc n server w
    result st2 rs :
  reaches_dispatch client openai_tools line st w1 completion entries →
  let st1 := dispatch_state client openai_tools line st w1 completion entries in
  completion_tool_calls completion = before ++ tool_call :: after →
  dispatch_tool_calls debug tool_to_server before [] st1 = (sta, inr acc) →
  call_name tool_call = Some n →
  tool_to_server !! n = Some server →
  send_call_tool n (parsed_arguments tool_call) server (world sta)
  = (w, inr result) →
  isError result = true →
  dispatch_tool_calls debug tool_to_server (completion_tool_calls completion)
    [] st1 = (st2, inr rs) →
  let text :=
    match error result with
    | Some error_msg => "Error: " +:+ py_str error_msg
    | None => "Error: Unknown error"
    end in
  rs !! List.length acc
  = Some (mkToolResponse (tc_id tool_call) n (PyStr text))
  ∧ ∃ later,
      history (round client openai_tools tool_to_server debug (inr line) st).1
      = (history st1 ++ map tool_message acc)
        ++ ToolMsg (tc_id tool_call) n (PyStr text) :: later.
Proof.
  intros Hreach st1 Hsplit Hbefore Hn Hreg Hsend Herr Hdispatch text.
  pose proof (round_history_after_dispatch client openai_tools tool_to_server
                debug line st w1 completion entries Hreach) as Hround.
  cbn zeta in Hround. fold st1 in Hround. rewrite Hdispatch in Hround.
  destruct Hround as (tail & Hh & _).
  rewrite Hsplit, dispatch_tool_calls_app in Hdispatch.
  unfold bind at 1 in Hdispatch. rewrite Hbefore in Hdispatch.
  cbn [dispatch_tool_calls] in Hdispatch. unfold bind at 1 in Hdispatch.
  destruct (dispatch_tool_call debug tool_to_server tool_call acc sta)
    as [stb [e | acc']] eqn:Hone; [done |].
  destruct (dispatch_resolved_value _ _ _ _ _ _ _ _ _ Hn Hreg Hone)
    as (w' & result' & Hsend' & ->).
  rewrite Hsend in Hsend'. injection Hsend' as <- <-.
  pose proof (dispatch_tool_calls_effect debug tool_to_server after
                (acc ++ [result_response tool_call n result]) stb)
    as (_ & calls & _ & _ & Hret).
  rewrite Hdispatch in Hret. cbn [snd] in Hret.
  destruct Hret as (_ & more & -> & _).
  assert (result_response tool_call n result
          = mkToolResponse (tc_id tool_call) n (PyStr text)) as Hresp.
  { unfold result_response, text. rewrite Herr. by destruct (error result). }
  rewrite Hresp in *. split.
  - rewrite <- app_assoc.
    rewrite lookup_app_r by done. by rewrite Nat.sub_diag.
  - exists (map tool_message more ++ tail). rewrite Hh.
    rewrite !map_app. simpl. by rewrite <- !app_assoc.
Qed.

(** ** A failure that leaves the loop *)

(** C7. A line can end the session without being an exit keyword.  When
    the panel showing the typed line does not render, [MarkupError] is
    raised before the user turn is appended; it is caught at the round
    boundary, where the handler prints it; when that notice does not
    render either, the handler itself raises: the round raises, and with
    it the loop, in the state the round started from, the remaining inputs
    unread. *)
Theorem markup_error_leaves_the_loop environ client openai_tools
    tool_to_server tools debug line rest st msg msg' :
  exits (inr line) = false →
  markup_error (user_panel_text (strip line)) = Some msg →
  markup_error (round_error_text (MarkupError msg)) = Some msg' →
  round (make_client environ) openai_tools tool_to_server debug (inr line) st
  = (st, inl (MarkupError msg'))
  ∧ process_conversation environ client openai_tools tool_to_server tools
      debug (inr line :: rest) st
    = (st, inl (MarkupError msg')).
Proof.
  intros Hexit Hpanel Hnotice. simpl in Hexit.
  assert (round (make_client environ) openai_tools tool_to_server debug
            (inr line) st = (st, inl (MarkupError msg'))) as Hround.
  { unfold round, try_except. rewrite round_body_unfold by done.
    unfold bind at 1, print_markup. rewrite Hpanel.
    unfold handle_round_error, bind, print_markup. by rewrite Hnotice. }
  split; [exact Hround |].
  unfold process_conversation. cbn [conversation_loop]. unfold bind.
  by rewrite Hround.
Qed.

(** ** Further properties of the rounds *)

(** X3. When a backend call raises during the dispatch, the tools branch
    stops there with that exception: the assistant turn recording the
    requests stays in the history, but no ToolResult turn is appended, not
    even for the calls that had already succeeded, and the followup
    completion is not requested. *)
Theorem failed_dispatch_leaves_requests_unanswered client openai_tools
    tool_to_server debug response_content tool_calls entries st st2 e :
  tool_call_entries tool_calls = inr entries →
  dispatch_tool_calls debug tool_to_server tool_calls []
    (set_history (history st ++ [assistant_request response_content entries]) st)
  = (st2, inl e) →
  handle_tool_calls client openai_tools tool_to_server debug response_content
    tool_calls st = (st2, inl e)
  ∧ history st2 = history st ++ [assistant_request response_content entries]
  ∧ completions st2 = completions st.
Proof.
  intros Hentries Hdispatch.
  split; [| split].
  - unfold handle_tool_calls. rewrite Hentries, bind_lift_inr.
    unfold bind at 1, append. fold (assistant_request response_content entries).
    unfold bind at 1. by rewrite Hdispatch.
  - pose proof (dispatch_tool_calls_effect debug tool_to_server tool_calls []
                  (set_history
                     (history st ++ [assistant_request response_content entries])
                     st)) as [Hh _].
    by rewrite Hdispatch in Hh.
  - pose proof (dispatch_keeps_completions debug tool_to_server tool_calls []
                  (set_history
                     (history st ++ [assistant_request response_content entries])
                     st)) as Hsame.
    by rewrite Hdispatch in Hsame.
Qed.

(** X1. A round on a line that is not an exit keyword, whose panel
    renders and whose completion requests no tool, records exactly two
    turns: the user turn holding the stripped line (the empty line
    included) and the assistant turn holding the response, or
    [No response] when the completion has no [response] key.  It makes
    that one completion call, on the history extended with the user turn,
    and no backend call. *)
Theorem plain_round client openai_tools tool_to_server debug line st w
    completion :
  exits (inr line) = false →
  markup_error (user_panel_text (strip line)) = None →
  create_completion client (history st ++ [UserMsg (strip line)]) openai_tools
    (world st) = (w, inr completion) →
  completion_tool_calls completion = [] →
  let text := dict_get (response completion) (PyStr "No response") in
  round client openai_tools tool_to_server debug (inr line) st
  = (mkState
       (history st ++ [UserMsg (strip line); AssistantMsg text None]) w
       (trace st ++
        [CallCompletion client (history st ++ [UserMsg (strip line)])
           openai_tools])
       (console st ++
        [OutUser (user_panel_text (strip line));
         OutAssistant (assistant_panel_text text)]),
     inr Continue).
Proof.
  intros Hexit Hrender Hc Hcalls text. simpl in Hexit.
  unfold round, try_except. rewrite round_body_unfold by done.
  unfold bind at 1, print_markup. rewrite Hrender.
  unfold after_user_turn, bind, print, append, call_create_completion,
    add_output, set_history, set_world, ret; simpl.
  rewrite Hc, Hcalls. simpl. by rewrite <- !app_assoc.
Qed.

(** X2. When the panel of the typed line renders and the completion of
    the round raises an exception whose notice renders, the exception is
    shown and the loop goes on, but the user turn appended before the call
    stays in the history, with no assistant turn after it. *)
Theorem failed_completion_keeps_user_turn client openai_tools tool_to_server
    debug line st w e :
  exits (inr line) = false →
  markup_error (user_panel_text (strip line)) = None →
  create_completion client (history st ++ [UserMsg (strip line)]) openai_tools
    (world st) = (w, inl e) →
  markup_error (round_error_text e) = None →
  round client openai_tools tool_to_server debug (inr line) st
  = (mkState (history st ++ [UserMsg (strip line)]) w
       (trace st ++
        [CallCompletion client (history st ++ [UserMsg (strip line)])
           openai_tools])
       (console st ++
        [OutUser (user_panel_text (strip line)); OutProcessingError e]),
     inr Continue).
Proof.
  intros Hexit Hrender Hc Hnotice. simpl in Hexit.
  unfold round, try_except. rewrite round_body_unfold by done.
  unfold bind at 1, print_markup. rewrite Hrender.
  unfold after_user_turn, bind, print, append, call_create_completion,
    add_output, set_history, set_world, ret; simpl.
  rewrite Hc. unfold handle_round_error, bind, print_markup.
  rewrite Hnotice. unfold add_output, ret. simpl. by rewrite <- !app_assoc.
Qed.

(** X4. The dispatch of a round's tool calls never touches the history.
    When it returns, the calls it made are exactly one backend call for
    each request whose name resolves, in request order, with the parsed
    arguments, to the backend the registry holds for the tool.  When it
    raises, the exception is that of one request: the requests before it
    were dispatched in full, with exactly their backend calls, the
    dispatch stopped in the state in which that request raised, having
    made at most that request's own backend call, and no later request was
    attempted. *)
Theorem dispatch_calls_registered_backends debug tool_to_server tool_calls acc
    st :
  let run := dispatch_tool_calls debug tool_to_server tool_calls acc st in
  history run.1 = history st
  ∧ match run.2 with
    | inr _ =>
        trace run.1 = trace st ++ backend_calls tool_to_server tool_calls
        ∧ Forall (routed tool_to_server)
            (backend_calls tool_to_server tool_calls)
    | inl e =>
        ∃ before tool_call after sta acc',
          tool_calls = before ++ tool_call :: after
          ∧ dispatch_tool_calls debug tool_to_server before acc st
            = (sta, inr acc')
          ∧ trace sta = trace st ++ backend_calls tool_to_server before
          ∧ dispatch_tool_call debug tool_to_server tool_call acc' sta
            = (run.1, inl e)
          ∧ (trace run.1 = trace sta
             ∨ trace run.1
               = trace sta ++ backend_calls tool_to_server [tool_call])
    end.
Proof.
  cbn zeta. split; [apply dispatch_tool_calls_effect |].
  revert acc st. induction tool_calls as [| tool_call rest IH]; intros acc st.
  - simpl. split; [by rewrite app_nil_r | constructor].
  - cbn [dispatch_tool_calls]. unfold bind.
    pose proof (dispatch_tool_call_effect debug tool_to_server tool_call acc
                  st) as (_ & calls & Ht & Hpre & Hret).
    destruct (dispatch_tool_call debug tool_to_server tool_call acc st)
      as [st1 [e | acc1]] eqn:Hone; cbn [fst snd] in *.
    + exists [], tool_call, rest, st, acc. simpl.
      rewrite app_nil_r. repeat split; try done.
      destruct Hpre as [more Hmore]. rewrite Ht.
      destruct calls as [| c calls]; [left; by rewrite app_nil_r |].
      right. f_equal. unfold backend_calls in *. simpl in *.
      destruct (call_name tool_call) as [n |]; [| done].
      destruct (tool_to_server !! n); [| done].
      injection Hmore as <- Hrest. by destruct calls.
    + destruct Hret as (-> & _). specialize (IH acc1 st1).
      destruct (dispatch_tool_calls debug tool_to_server rest acc1 st1)
        as [st2 [e | rs]] eqn:Hrest; cbn [fst snd] in *.
      * destruct IH as (before & tc & after & sta & acc' & -> & Hb & Htb
                        & Hfail & Hcalls).
        exists (tool_call :: before), tc, after, sta, acc'.
        split; [done |]. split.
        { cbn [dispatch_tool_calls]. unfold bind. by rewrite Hone. }
        split; [| by split].
        rewrite Htb, Ht, (backend_calls_cons _ tool_call before).
        by rewrite <- app_assoc.
      * destruct IH as [Htr _]. split; [| apply backend_calls_routed].
        rewrite Htr, Ht, (backend_calls_cons _ tool_call rest).
        by rewrite <- app_assoc.
Qed.

(** X8. When a backend fails to list its tools and the notice of the
    failure renders, chat mode ends there: the error is shown, the session
    is over before the conversation loop, the backends after the failing
    one are not contacted, no completion call is made, no input is read
    and the history is untouched. *)
Theorem discovery_failure_ends_chat_mode environ before ds server after
    provider model debug inputs st w1 w2 e :
  fetched (world st) before ds w1 →
  fetch_tools server w1 = (w2, inl e) →
  markup_error (chat_error_text e) = None →
  handle_chat_mode environ (before ++ server :: after) provider model debug
    inputs st
  = (mkState (history st) w2
       (trace st ++ map CallFetchTools (before ++ [server]))
       (console st ++ [OutChatModeError e]),
     inr SessionEnded).
Proof.
  intros Hf Hfail Hrender. unfold handle_chat_mode, try_except.
  unfold bind at 1.
  rewrite (discover_fails _ _ _ _ _ _ _ _ _ Hf Hfail).
  unfold bind, print_markup. by rewrite Hrender.
Qed.

(** X9. When the discovery finds a tool, chat mode is the conversation
    loop started on a fresh history holding the system prompt alone,
    whatever the history held before, with the client of the environment,
    the converted tool list and the registry built: it returns what the
    loop returns, and an exception that leaves the loop goes to the
    handler of line 50.  In every case the history it leaves still begins
    with that system prompt. *)
Theorem chat_mode_opens_with_the_system_prompt environ servers provider model
    debug inputs ds st w' :
  fetched (world st) servers ds w' →
  discovered_tools ds ≠ [] →
  let tools := discovered_tools ds in
  let system_prompt := generate_prompt tools +:+ GENERAL_GUIDELINES in
  let loop :=
    conversation_loop (make_client environ) (convert_to_openai_tools tools)
      (register_all ds ([], ∅)).2 debug inputs
      (mkState [SystemMsg system_prompt] w'
         (trace st ++ map CallFetchTools servers) (console st)) in
  let run := handle_chat_mode environ servers provider model debug inputs st in
  [SystemMsg system_prompt] `prefix_of` history run.1
  ∧ match loop with
    | (st', inr status) => run = (st', inr status)
    | (st', inl e) =>
        run = bind (print_markup (chat_error_text e) (OutChatModeError e))
                (λ _, ret SessionEnded) st'
    end.
Proof.
  intros Hf Hsome tools system_prompt loop run.
  assert (run = try_except (λ _, loop)
                  (λ e, bind (print_markup (chat_error_text e)
                                (OutChatModeError e))
                          (λ _, ret SessionEnded)) st) as Hrun.
  { unfold run, handle_chat_mode, try_except. unfold bind at 1.
    rewrite (discover_run _ _ _ _ _ Hf). cbn zeta.
    rewrite register_all_tools. simpl. fold tools.
    destruct tools as [| tool rest] eqn:Htools; [done |].
    unfold bind at 1, new_history. reflexivity. }
  pose proof (extends_conversation_loop (make_client environ)
                (convert_to_openai_tools tools) (register_all ds ([], ∅)).2
                debug inputs
                (mkState [SystemMsg system_prompt] w'
                   (trace st ++ map CallFetchTools servers) (console st)))
    as Hgrows.
  fold loop in Hgrows. simpl in Hgrows.
  rewrite Hrun. unfold try_except.
  destruct loop as [st' [e | status]]; [| done].
  split; [| done]. etrans; [exact Hgrows |].
  apply (extends_bind (print_markup (chat_error_text e) (OutChatModeError e))
           (λ _, ret SessionEnded)
           (extends_print_markup _ _) (λ _, extends_ret _)).
Qed.

(** X10. When the arguments of a call whose name resolves are obtained
    and the backend's result has no error flag, the call returns and its
    ToolResult turn carries the backend's content; it carries
    [No content] when the result has no [content] key and
    [No response from tool] when the content is [None].  Whatever the
    response, a ToolResult turn never has [None] as its content. *)
Theorem backend_success_is_reported debug tool_to_server tool_call n server
    acc st st1 arguments w result :
  call_name tool_call = Some n →
  tool_to_server !! n = Some server →
  parse_arguments n tool_call st = (st1, inr arguments) →
  send_call_tool n arguments server (world st) = (w, inr result) →
  isError result = false →
  (∃ st' r,
     dispatch_tool_call debug tool_to_server tool_call acc st
     = (st', inr (acc ++ [r]))
     ∧ trace st' = trace st ++ [CallTool n arguments server]
     ∧ tool_message r
       = ToolMsg (tc_id tool_call) n (PyStr (success_text result)))
  ∧ (∀ r : ToolResponse,
       ∃ text, tool_message r
               = ToolMsg (tr_tool_call_id r) (tr_name r) (PyStr text)).
Proof.
  intros Hn Hreg Hparse Hsend Hok. split.
  - rewrite (dispatch_resolved debug _ _ _ _ acc Hn Hreg).
    pose proof (quiet_parse_arguments n tool_call st) as (_ & Hw & Ht).
    unfold bind at 1. rewrite Hparse in *. cbn [fst] in Hw, Ht.
    unfold bind at 1, print. unfold bind at 1, call_send_call_tool. simpl.
    rewrite Hw, Hsend.
    unfold report_result, bind, print, ret. rewrite Hok.
    destruct debug; cbn beta iota zeta.
    all: eexists _, _; split; [reflexivity |].
    all: split; [simpl; by rewrite Ht |].
    all: unfold tool_message, success_text; simpl.
    all: by destruct (result_content result) as [[] |].
  - intros r. unfold tool_message. destruct (tr_content r); eauto.
Qed.

(** ** What the user typed *)

Lemma user_turns_app (h1 h2 : list Message) :
  user_turns (h1 ++ h2) = user_turns h1 ++ user_turns h2.
Proof. unfold user_turns. apply flat_map_app. Qed.

Lemma user_turns_after_user_turn client tools tool_to_server debug :
  transforms (λ a b, user_turns (history b) = user_turns (history a))
    (after_user_turn client tools tool_to_server debug).
Proof.
  apply stable_after_user_turn; try done.
  - intros a b c Hab Hbc. congruence.
  - intros. simpl. rewrite user_turns_app. simpl. by rewrite app_nil_r.
  - intros. simpl. rewrite user_turns_app. simpl. by rewrite app_nil_r.
Qed.

(** X13. A round records the line typed as one user turn, and no other
    user turn: the stripped text of the line is appended as a user turn
    when the line is not an exit keyword and its panel renders, the empty
    line included and whether or not the rest of the round fails; a prompt
    that raised, an exit keyword and a line whose panel does not render
    leave no user turn. *)
Theorem round_records_the_line_typed client openai_tools tool_to_server debug
    input st :
  user_turns
    (history (round client openai_tools tool_to_server debug input st).1)
  = user_turns (history st) ++
    match input with
    | inr line =>
        if is_exit_keyword (strip line) then []
        else match markup_error (user_panel_text (strip line)) with
             | None => [strip line]
             | Some _ => []
             end
    | inl _ => []
    end.
Proof.
  unfold round, try_except.
  assert (user_turns
            (history
               (round_body client openai_tools tool_to_server debug input st).1)
          = user_turns (history st) ++
            match input with
            | inr line =>
                if is_exit_keyword (strip line) then []
                else match markup_error (user_panel_text (strip line)) with
                     | None => [strip line]
                     | Some _ => []
                     end
            | inl _ => []
            end) as Hbody.
  { destruct input as [e | line]; [by rewrite app_nil_r |].
    destruct (is_exit_keyword (strip line)) eqn:Hexit.
    - rewrite round_body_exit by done. by rewrite app_nil_r.
    - rewrite round_body_unfold by done. unfold bind at 1, print_markup.
      destruct (markup_error _); [by rewrite app_nil_r |].
      set (o := OutUser _).
      pose proof (user_turns_after_user_turn client openai_tools
                    tool_to_server debug
                    (set_history (history (add_output o st)
                                  ++ [UserMsg (strip line)])
                       (add_output o st))) as Hrest.
      simpl in Hrest. rewrite user_turns_app in Hrest. exact Hrest. }
  destruct (round_body _ _ _ _ _ st) as [st' [e | c]]; [| done].
  simpl in *. by destruct (quiet_handle_round_error e st') as (-> & _).
Qed.

(** X15. A call whose name resolves and whose arguments are [None] or
    the empty string is dispatched with what the text of an empty object
    parses to: no parse error is printed, the backend is called once
    with that value, and the outcome of the call is the backend's
    exception, or what lines 145-169 make of the backend's result. *)
Theorem missing_arguments_parse_as_empty_object debug tool_to_server
    tool_call n server a arguments acc st :
  call_name tool_call = Some n →
  tool_to_server !! n = Some server →
  function_arguments tool_call = inr a →
  truthy a = false →
  json_loads "{}" = inr arguments →
  dispatch_tool_call debug tool_to_server tool_call acc st
  = let st' w :=
      mkState (history st) w (trace st ++ [CallTool n arguments server])
        (console st ++ [OutToolInvocation n arguments]) in
    match send_call_tool n arguments server (world st) with
    | (w, inl e) => (st' w, inl e)
    | (w, inr result) => report_result debug tool_call n result acc (st' w)
    end.
Proof.
  intros Hn Hreg Ha Hfalsy Hparse.
  rewrite (dispatch_resolved debug _ _ _ _ acc Hn Hreg).
  unfold bind at 1, parse_arguments. rewrite Ha. unfold py_or.
  rewrite Hfalsy. simpl. rewrite Hparse. unfold ret.
  unfold bind at 1, print. unfold bind at 1, call_send_call_tool.
  unfold add_output, set_world. simpl.
  by destruct (send_call_tool _ _ _ _) as [w [e | result]].
Qed.

(** ** The exit test *)

Lemma lower_ascii_cases (a : ascii) :
  nat_of_ascii (lower_ascii a) = nat_of_ascii a
  ∨ ((nat_of_ascii a < 128)%nat ∧ (nat_of_ascii (lower_ascii a) < 128)%nat
     ∧ space1 (nat_of_ascii a) = false
     ∧ space1 (nat_of_ascii (lower_ascii a)) = false).
Proof.
  destruct a as [[] [] [] [] [] [] [] []]; vm_compute;
    first [left; reflexivity | right; repeat split; lia].
Qed.

Lemma space1_lower a :
  space1 (nat_of_ascii (lower_ascii a)) = space1 (nat_of_ascii a).
Proof.
  destruct (lower_ascii_cases a) as [-> | (_ & _ & -> & ->)]; reflexivity.
Qed.

Lemma high2_low p2 a b :
  high2 p2 → (a < 128)%nat ∨ (b < 128)%nat → p2 a b = false.
Proof.
  intros Hhigh Hlow. destruct (p2 a b) eqn:E; [| done].
  apply Hhigh in E. lia.
Qed.

Lemma high3_low p3 a b c :
  high3 p3 → (a < 128)%nat ∨ (b < 128)%nat ∨ (c < 128)%nat → p3 a b c = false.
Proof.
  intros Hhigh Hlow. destruct (p3 a b c) eqn:E; [| done].
  apply Hhigh in E. lia.
Qed.

Lemma high2_lower p2 a b :
  high2 p2 →
  p2 (nat_of_ascii (lower_ascii a)) (nat_of_ascii (lower_ascii b))
  = p2 (nat_of_ascii a) (nat_of_ascii b).
Proof.
  intros Hhigh.
  destruct (lower_ascii_cases a) as [-> | (? & ? & _)];
    destruct (lower_ascii_cases b) as [-> | (? & ? & _)]; try reflexivity.
  all: rewrite !(high2_low p2 _ _ Hhigh); [done | lia | lia].
Qed.

Lemma high3_lower p3 a b c :
  high3 p3 →
  p3 (nat_of_ascii (lower_ascii a)) (nat_of_ascii (lower_ascii b))
    (nat_of_ascii (lower_ascii c))
  = p3 (nat_of_ascii a) (nat_of_ascii b) (nat_of_ascii c).
Proof.
  intros Hhigh.
  destruct (lower_ascii_cases a) as [-> | (? & ? & _)];
    destruct (lower_ascii_cases b) as [-> | (? & ? & _)];
    destruct (lower_ascii_cases c) as [-> | (? & ? & _)]; try reflexivity.
  all: rewrite !(high3_low p3 _ _ _ Hhigh); [done | lia | lia].
Qed.

Lemma high2_space2 : high2 space2.
Proof.
  intros a b. unfold space2.
  rewrite andb_true_iff, orb_true_iff, !Nat.eqb_eq. lia.
Qed.

Lemma high3_space3 : high3 space3.
Proof.
  intros a b c. unfold space3.
  rewrite !orb_true_iff, !andb_true_iff, !orb_true_iff, !andb_true_iff,
    !Nat.eqb_eq, !Nat.leb_le.
  lia.
Qed.

Lemma lstrip_with_cons p2 p3 a s1 :
  lstrip_with p2 p3 (String a s1)
  = if space1 (nat_of_ascii a) then lstrip_with p2 p3 s1
    else
      match s1 with
      | EmptyString => String a s1
      | String b s2 =>
          if p2 (nat_of_ascii a) (nat_of_ascii b) then lstrip_with p2 p3 s2
          else
            match s2 with
            | EmptyString => String a s1
            | String c s3 =>
                if p3 (nat_of_ascii a) (nat_of_ascii b) (nat_of_ascii c)
                then lstrip_with p2 p3 s3
                else String a s1
            end
      end.
Proof. reflexivity. Qed.

Lemma lstrip_with_lower p2 p3 :
  high2 p2 → high3 p3 →
  ∀ s, lstrip_with p2 p3 (lower s) = lower (lstrip_with p2 p3 s).
Proof.
  intros H2 H3 s.
  remember (String.length s) as n eqn:Hn.
  revert s Hn. induction (lt_wf n) as [n _ IH]. intros s ->.
  destruct s as [| a s1]; [done |].
  cbn [lower]. rewrite !lstrip_with_cons, space1_lower.
  destruct (space1 _).
  { apply (IH (String.length s1)); [simpl; lia | done]. }
  destruct s1 as [| b s2]; [done |].
  cbn [lower]. rewrite (high2_lower p2 a b H2).
  destruct (p2 _ _).
  { apply (IH (String.length s2)); [simpl; lia | done]. }
  destruct s2 as [| c s3]; [done |].
  cbn [lower]. rewrite (high3_lower p3 a b c H3).
  destruct (p3 _ _ _); [| done].
  apply (IH (String.length s3)); [simpl; lia | done].
Qed.

Lemma reverse_onto_lower s acc :
  reverse_onto (lower s) (lower acc) = lower (reverse_onto s acc).
Proof.
  revert acc. induction s as [| a s IH]; intros acc; [done |].
  simpl. apply (IH (String a acc)).
Qed.

Lemma strip_lower s : strip (lower s) = lower (strip s).
Proof.
  unfold strip, rstrip, lstrip, reverse.
  rewrite (lstrip_with_lower _ _ high2_space2 high3_space3).
  rewrite (reverse_onto_lower _ EmptyString).
  rewrite lstrip_with_lower.
  - apply (reverse_onto_lower _ EmptyString).
  - intros a b Hab. apply high2_space2 in Hab. lia.
  - intros a b c Habc. apply high3_space3 in Habc. lia.
Qed.

Lemma append_cons (x : ascii) (a b : string) :
  String x a +:+ b = String x (a +:+ b).
Proof. reflexivity. Qed.

Lemma append_assoc (a b c : string) : (a +:+ b) +:+ c = a +:+ (b +:+ c).
Proof.
  induction a as [| x a IH]; [done |]. by rewrite !append_cons, IH.
Qed.

Lemma append_nil_r (a : string) : a +:+ EmptyString = a.
Proof. induction a as [| x a IH]; [done |]. by rewrite append_cons, IH. Qed.

Lemma reverse_onto_append s acc :
  reverse_onto s acc = reverse s +:+ acc.
Proof.
  unfold reverse. revert acc. induction s as [| a s IH]; intros acc; [done |].
  simpl. rewrite (IH (String a acc)), (IH (String a EmptyString)).
  by rewrite append_assoc.
Qed.

Lemma reverse_append s t : reverse (s +:+ t) = reverse t +:+ reverse s.
Proof.
  induction s as [| a s IH].
  - by rewrite append_nil_r.
  - rewrite append_cons. unfold reverse at 1 3. cbn [reverse_onto].
    rewrite !(reverse_onto_append _ (String a EmptyString)), IH.
    by rewrite append_assoc.
Qed.

Lemma start_byte_space2 a c : start_byte c = true → space2 a c = false.
Proof.
  unfold start_byte, space2. intros Hc. apply not_true_is_false. revert Hc.
  rewrite andb_true_iff, !orb_true_iff, !Nat.eqb_eq, Nat.ltb_lt, Nat.leb_le.
  lia.
Qed.

Lemma start_byte_space3 a b c :
  start_byte b = true ∨ start_byte c = true → space3 a b c = false.
Proof.
  unfold start_byte, space3. intros Hc. apply not_true_is_false. revert Hc.
  rewrite !orb_true_iff, !andb_true_iff, !orb_true_iff, !andb_true_iff,
    !Nat.eqb_eq, !Nat.ltb_lt, !Nat.leb_le.
  lia.
Qed.

(** Blank text after a line is not joined to the line's last bytes. *)
Lemma lstrip_append c w s :
  start_byte (nat_of_ascii c) = true →
  lstrip (String c w) = EmptyString →
  lstrip (s +:+ String c w) = lstrip s +:+ String c w
  ∨ (lstrip s = EmptyString ∧ lstrip (s +:+ String c w) = EmptyString).
Proof.
  intros Hc Hw.
  remember (String.length s) as n eqn:Hn.
  revert s Hn. induction (lt_wf n) as [n _ IH]. intros s ->.
  destruct s as [| a s1]; [right; by split |].
  unfold lstrip in *. rewrite append_cons, !lstrip_with_cons.
  destruct (space1 (nat_of_ascii a)).
  { apply (IH (String.length s1)); [simpl; lia | done]. }
  destruct s1 as [| b s2].
  { left. change (EmptyString +:+ String c w) with (String c w).
    cbv beta iota. rewrite (start_byte_space2 _ _ Hc).
    destruct w as [| d w]; [done |].
    by rewrite (start_byte_space3 _ _ _ (or_introl Hc)). }
  rewrite append_cons. destruct (space2 _ _).
  { apply (IH (String.length s2)); [simpl; lia | done]. }
  destruct s2 as [| d s3].
  { left. change (EmptyString +:+ String c w) with (String c w).
    cbv beta iota. by rewrite (start_byte_space3 _ _ _ (or_intror Hc)). }
  rewrite append_cons. destruct (space3 _ _ _); [| by left].
  apply (IH (String.length s3)); [simpl; lia | done].
Qed.

Lemma strip_append c w s :
  start_byte (nat_of_ascii c) = true →
  lstrip (String c w) = EmptyString →
  (∀ t, rstrip (t +:+ String c w) = rstrip t) →
  strip (s +:+ String c w) = strip s.
Proof.
  intros Hc Hw Hr. unfold strip.
  destruct (lstrip_append c w s Hc Hw) as [-> | [-> ->]]; [apply Hr | done].
Qed.

Lemma rstrip_append w :
  (∀ x, lstrip_with (λ b a, space2 a b) (λ c b a, space3 a b c)
          (reverse w +:+ x)
        = lstrip_with (λ b a, space2 a b) (λ c b a, space3 a b c) x) →
  ∀ t, rstrip (t +:+ w) = rstrip t.
Proof. intros Hw t. unfold rstrip. by rewrite reverse_append, Hw. Qed.

Lemma whitespace_stripped :
  Forall (λ w, ∀ s, strip (w +:+ s) = strip s ∧ strip (s +:+ w) = strip s)
    whitespace.
Proof.
  unfold whitespace. cbn [map].
  repeat first [apply List.Forall_nil | apply List.Forall_cons]; intros s.
  all: match goal with
       | |- context [utf8 ?cp] =>
           let bytes := eval vm_compute in (utf8 cp) in
           change (utf8 cp) with bytes
       end.
  all: split; [reflexivity |].
  all: apply strip_append; [reflexivity | reflexivity |].
  all: apply rstrip_append; reflexivity.
Qed.

(** X11. The exit test ignores letter case and outer blanks: two lines
    that differ in the case of the letters A to Z only are both exit
    keywords or both not, and so are a line and the same line with one
    more whitespace character before it or after it, where whitespace is
    any character [str.isspace] holds for, U+0085, U+00A0 and U+3000
    included. *)
Theorem exit_ignores_case_and_blanks :
  (∀ line1 line2,
     lower line1 = lower line2 → exits (inr line1) = exits (inr line2))
  ∧ (∀ w line,
       In w whitespace →
       exits (inr (w +:+ line)) = exits (inr line)
       ∧ exits (inr (line +:+ w)) = exits (inr line)).
Proof.
  split.
  - intros line1 line2 Hlower. unfold exits, is_exit_keyword. cbn zeta.
    by rewrite <- !strip_lower, Hlower.
  - intros w line Hin. unfold exits.
    pose proof (proj1 (List.Forall_forall _ _) whitespace_stripped w Hin)
      as Hw.
    by destruct (Hw line) as [-> ->].
Qed.

(** ** How a session ends *)

Lemma after_user_turn_control client tools tool_to_server debug st st' c :
  after_user_turn client tools tool_to_server debug st = (st', inr c) →
  c = Continue.
Proof.
  unfold after_user_turn. unfold bind at 1.
  destruct (call_create_completion client tools st) as [st1 [e | completion]];
    [done |].
  destruct (completion_tool_calls completion).
  - unfold bind, print, append, ret. by intros [= _ <-].
  - unfold bind at 1. destruct (handle_tool_calls _ _ _ _ _ _ st1) as [? [? | ?]];
      [done |]. unfold ret. by intros [= _ <-].
Qed.

Lemma round_control client tools tool_to_server debug input st st' c :
  round client tools tool_to_server debug input st = (st', inr c) →
  c = if exits input then Break else Continue.
Proof.
  unfold round, try_except. destruct input as [e | line]; simpl.
  - unfold handle_round_error, bind, print_markup, ret.
    destruct (markup_error _); [done |]. by intros [= _ <-].
  - destruct (is_exit_keyword (strip line)) eqn:Hexit.
    + rewrite round_body_exit by done. by intros [= _ <-].
    + rewrite round_body_unfold by done.
      unfold bind at 1. destruct (print_markup _ _ st) as [st1 [e | []]].
      * unfold handle_round_error, bind, print_markup, ret.
        destruct (markup_error _); [done |]. by intros [= _ <-].
      * unfold bind at 1, append.
        destruct (after_user_turn _ _ _ _ _) as [st2 [e | c']] eqn:Hrest.
        -- unfold handle_round_error, bind, print_markup, ret.
           destruct (markup_error _); [done |]. by intros [= _ <-].
        -- intros [= _ <-]. by apply after_user_turn_control in Hrest.
Qed.

Lemma conversation_loop_status client tools tool_to_server debug inputs st st'
    status :
  conversation_loop client tools tool_to_server debug inputs st
  = (st', inr status) →
  status = if existsb exits inputs then SessionEnded else AwaitingUserInput.
Proof.
  revert st. induction inputs as [| input rest IH]; intros st.
  - simpl. unfold ret. by intros [= _ <-].
  - cbn [conversation_loop existsb]. unfold bind.
    destruct (round _ _ _ _ input st) as [st1 [e | c]] eqn:Hround; [done |].
    apply round_control in Hround as ->.
    destruct (exits input); [unfold ret; by intros [= _ <-] | apply IH].
Qed.

(** X16. A session ends normally on an exit keyword only.  (1) On a line
    that is an exit keyword the loop ends at once: the exit panel is
    shown, the history, the world and the calls made are untouched (no
    completion call), and later lines are not read.  (2) Whenever the
    loop returns, the session has ended exactly when one of the lines was
    an exit keyword, and is awaiting the next line otherwise.  (3) An
    exception raised inside a round whose notice renders is caught at
    the round boundary and shown, and the loop goes on.  (4) The exit
    keywords are [exit] and [quit], compared after [strip] and
    [lower]. *)
Theorem normal_end_only_on_exit environ openai_tools tool_to_server tools
    debug :
  (∀ client line rest st,
     exits (inr line) = true →
     process_conversation environ client openai_tools tool_to_server tools
       debug (inr line :: rest) st
     = (add_output OutExiting st, inr SessionEnded))
  ∧ (∀ client inputs st st' status,
       process_conversation environ client openai_tools tool_to_server tools
         debug inputs st = (st', inr status) →
       status = if existsb exits inputs then SessionEnded
                else AwaitingUserInput)
  ∧ (∀ client input st st1 e,
       round_body client openai_tools tool_to_server debug input st
       = (st1, inl e) →
       markup_error (round_error_text e) = None →
       round client openai_tools tool_to_server debug input st
       = (add_output (OutProcessingError e) st1, inr Continue))
  ∧ (∀ line,
       exits (inr line) = true ↔
       lower (strip line) = "exit" ∨ lower (strip line) = "quit").
Proof.
  split; [| split; [| split]].
  - intros client line rest st Hexit. simpl in Hexit.
    unfold process_conversation. cbn [conversation_loop].
    unfold bind, round, try_except. by rewrite round_body_exit.
  - intros client inputs st st' status. apply conversation_loop_status.
  - intros client input st st1 e Hbody Hrender.
    unfold round, try_except. rewrite Hbody.
    unfold handle_round_error, bind, print_markup. by rewrite Hrender.
  - intros line. simpl. unfold is_exit_keyword.
    by rewrite orb_true_iff, !String.eqb_eq.
Qed.

End Properties.

(** * The properties on scripted sessions *)

Import Scripted.

Ltac scripted := repeat split; try reflexivity; try discriminate.



Lemma tool_results_follow_requests_witness :
  let completion := mkCompletion (Some (PyStr "")) mixed_calls in
  let entries := [mkEntry "call_1" (PyStr "add") (PyStr "{}");
                  mkEntry "call_2" (PyStr "subtract") (PyStr "{}")] in
  let followups := [inr (mkCompletion (Some (PyStr "The sum is 4.")) [])] in
  let st := in_chat mixed_script in
  let st1 :=
    dispatch_state client [] "add 2 and 2" st followups completion entries in
  let after := history (round client [] registry false (inr "add 2 and 2") st).1 in
  let rs := [mkToolResponse "call_1" "add" (PyStr "4")] in
  reaches_dispatch client [] "add 2 and 2" st followups completion entries
  ∧ (dispatch_tool_calls false registry mixed_calls [] st1).2 = inr rs
  ∧ (∃ tail,
       after = history st1 ++ map tool_message rs ++ tail
       ∧ List.filter is_tool_msg tail = [])
  ∧ Forall2 answers (List.filter (resolvable registry) mixed_calls) rs
  ∧ map tr_tool_call_id rs
    = map tc_id (List.filter (resolvable registry) mixed_calls)
  ∧ List.length (map tool_message rs)
    = List.length mixed_calls
      - List.length (List.filter nameless mixed_calls)
      - List.length (List.filter (unknown registry) mixed_calls).
Proof.
  cbn zeta.
  assert (reaches_dispatch client [] "add 2 and 2" (in_chat mixed_script)
            [inr (mkCompletion (Some (PyStr "The sum is 4.")) [])]
            (mkCompletion (Some (PyStr "")) mixed_calls)
            [mkEntry "call_1" (PyStr "add") (PyStr "{}");
             mkEntry "call_2" (PyStr "subtract") (PyStr "{}")]) as Hr
    by scripted.
  split; [exact Hr |]. split; [reflexivity |].
  exact (tool_results_follow_requests client [] registry false "add 2 and 2"
           (in_chat mixed_script) _ _ _ Hr).
Defined.

(** Two calls are requested in the round, none of them nameless, and one
    ToolResult turn is appended. *)
Lemma unregistered_call_breaks_the_count :
  let run := round client [] registry false (inr "add 2 and 2")
               (in_chat mixed_script) in
  run.2 = inr Continue
  ∧ List.length mixed_calls = 2
  ∧ List.length (List.filter nameless mixed_calls) = 0
  ∧ List.filter is_tool_msg (history run.1)
    = [ToolMsg "call_1" "add" (PyStr "4")]
  ∧ List.length (List.filter is_tool_msg (history run.1))
    ≠ List.length mixed_calls - List.length (List.filter nameless mixed_calls).
Proof. vm_compute. repeat split. discriminate. Qed.

Lemma unparsable_arguments_become_empty_witness :
  call_name garbled_call = Some "add"
  ∧ registry !! "add" = Some backend1
  ∧ function_arguments garbled_call = inr (PyStr "{oops")
  ∧ json_loads "{oops" = inl "Expecting value"
  ∧ markup_error (parse_error_text "add" "Expecting value") = None
  ∧ dispatch_tool_call false registry garbled_call [] (in_chat [])
    = (mkState (history (in_chat [])) []
         (trace (in_chat []) ++ [CallTool "add" (JObj []) backend1])
         (console (in_chat []) ++
          [OutArgParseError "add" "Expecting value";
           OutToolInvocation "add" (JObj [])]),
       inr [mkToolResponse "call_1" "add" (PyStr "4")]).
Proof.
  split; [reflexivity |]. split; [reflexivity |]. split; [reflexivity |].
  split; [reflexivity |]. split; [reflexivity |].
  exact (proj1 (unparsable_arguments_become_empty false registry garbled_call
                  "add" backend1 (PyStr "{oops") "Expecting value" []
                  (in_chat []) eq_refl eq_refl eq_refl eq_refl eq_refl)).
Defined.

(** The arguments do not parse, and yet the backend is invoked and the
    result of the call is the backend's success, not an error carrying the
    parse message. *)
Lemma unparsable_arguments_reach_the_backend :
  let run := dispatch_tool_call false registry garbled_call [] (in_chat []) in
  json_loads "{oops" = inl "Expecting value"
  ∧ List.filter is_tool_call (trace run.1)
    = [CallTool "add" (JObj []) backend1]
  ∧ run.2 = inr [mkToolResponse "call_1" "add" (PyStr "4")]
  ∧ ¬ (List.filter is_tool_call (trace run.1) = []).
Proof. vm_compute. repeat split. discriminate. Qed.

(** Two backends list [add]. *)
Lemma registry_last_registration_wins_witness :
  fetched [] [backend1; backend2]
    [(backend1, [add_tool]); (backend2, [add_tool; echo_tool])] []
  ∧ ∃ st' tools tool_to_server,
      discover [backend1; backend2] ([], ∅) (initial [])
      = (st', inr (tools, tool_to_server))
      ∧ (∀ n, tool_to_server !! n
              = fst <$> last (List.filter (exposes n)
                                [(backend1, [add_tool]);
                                 (backend2, [add_tool; echo_tool])]))
      ∧ (∀ n server,
           tool_to_server !! n = Some server →
           ∃ server_tools,
             In (server, server_tools)
               [(backend1, [add_tool]); (backend2, [add_tool; echo_tool])]
             ∧ existsb (registers n) server_tools = true).
Proof.
  assert (fetched [] [backend1; backend2]
            [(backend1, [add_tool]); (backend2, [add_tool; echo_tool])] [])
    as Hf by (repeat econstructor).
  split; [exact Hf |].
  exact (registry_last_registration_wins [backend1; backend2] _ (initial [])
           [] Hf).
Defined.

(** Construction succeeds, so it does not fail fast, and [add] is routed
    to the second backend, not to the one that registered it first. *)
Lemma duplicate_name_goes_to_the_later_backend :
  let run := discover [backend1; backend2] ([], ∅) (initial []) in
  fetch_tools backend1 [] = ([], inr [add_tool])
  ∧ fetch_tools backend2 [] = ([], inr [add_tool; echo_tool])
  ∧ ¬ ((∃ e, run.2 = inl e)
       ∨ (∃ r, run.2 = inr r ∧ r.2 !! "add" = Some backend1))
  ∧ ∃ r, run.2 = inr r ∧ r.2 !! "add" = Some backend2.
Proof.
  cbn zeta. split; [reflexivity |]. split; [reflexivity |].
  assert ((discover [backend1; backend2] ([], ∅) (initial [])).2
          = inr (register_all [(backend1, [add_tool]);
                               (backend2, [add_tool; echo_tool])] ([], ∅)))
    as -> by reflexivity.
  split.
  - intros [[e He] | (r & [= <-] & Hr)]; [discriminate He |].
    vm_compute in Hr. discriminate Hr.
  - eexists. split; [reflexivity |]. reflexivity.
Qed.

Lemma backend_error_is_reported_witness :
  let completion := mkCompletion (Some (PyStr "")) [failing_call] in
  let entries := [mkEntry "call_1" (PyStr "fail") (PyStr "{}")] in
  let followups := [inr (mkCompletion (Some (PyStr "The tool failed.")) [])] in
  let st := in_chat failing_script in
  let st1 :=
    dispatch_state client [] "try it" st followups completion entries in
  reaches_dispatch client [] "try it" st followups completion entries
  ∧ call_name failing_call = Some "fail"
  ∧ registry !! "fail" = Some backend1
  ∧ send_call_tool "fail" (parsed_arguments failing_call) backend1 followups
    = (followups, inr (mkCallResult true (Some (PyStr "")) None))
  ∧ (dispatch_tool_calls false registry [failing_call] [] st1).2
    = inr [mkToolResponse "call_1" "fail" (PyStr "Error: ")]
  ∧ [mkToolResponse "call_1" "fail" (PyStr "Error: ")] !! 0
    = Some (mkToolResponse "call_1" "fail" (PyStr "Error: "))
  ∧ ∃ later,
      history (round client [] registry false (inr "try it") st).1
      = (history st1 ++ map tool_message [])
        ++ ToolMsg "call_1" "fail" (PyStr "Error: ") :: later.
Proof.
  cbn zeta.
  assert (reaches_dispatch client [] "try it" (in_chat failing_script)
            [inr (mkCompletion (Some (PyStr "The tool failed.")) [])]
            (mkCompletion (Some (PyStr "")) [failing_call])
            [mkEntry "call_1" (PyStr "fail") (PyStr "{}")]) as Hr
    by scripted.
  split; [exact Hr |]. split; [reflexivity |]. split; [reflexivity |].
  split; [reflexivity |]. split; [reflexivity |].
  exact (backend_error_is_reported client [] registry false "try it"
           (in_chat failing_script) _ _ _ [] failing_call [] _ [] "fail"
           backend1 _ (mkCallResult true (Some (PyStr "")) None) _
           [mkToolResponse "call_1" "fail" (PyStr "Error: ")]
           Hr eq_refl eq_refl eq_refl eq_refl eq_refl eq_refl eq_refl).
Defined.

(** The error flag is set and the error string is empty; the content
    reported is neither the placeholder nor the backend's string alone. *)
Lemma empty_backend_error_gets_no_placeholder :
  let run := dispatch_tool_call false registry failing_call [] (in_chat []) in
  send_call_tool "fail" (JObj []) backend1 []
  = ([], inr (mkCallResult true (Some (PyStr "")) None))
  ∧ run.2 = inr [mkToolResponse "call_1" "fail" (PyStr "Error: ")]
  ∧ ¬ (∃ id name, run.2 = inr [mkToolResponse id name (PyStr "Unknown error")])
  ∧ ¬ (∃ id name,
         run.2 = inr [mkToolResponse id name (PyStr "Error: Unknown error")]).
Proof.
  vm_compute. repeat split; intros (id & name & [=]).
Qed.

Lemma followup_is_final_witness :
  let completion :=
    mkCompletion (Some (PyStr "sum")) [named_call "call_1" "add" "{}"] in
  let entries := [mkEntry "call_1" (PyStr "add") (PyStr "{}")] in
  let st := in_chat greedy_script in
  let st1 :=
    dispatch_state client [] "add 2 and 2" st [inr greedy_followup] completion
      entries in
  let st2 :=
    (dispatch_tool_calls false registry [named_call "call_1" "add" "{}"] []
       st1).1 in
  let rs := [mkToolResponse "call_1" "add" (PyStr "4")] in
  let messages := history st1 ++ map tool_message rs in
  reaches_dispatch client [] "add 2 and 2" st [inr greedy_followup] completion
    entries
  ∧ completion_tool_calls greedy_followup ≠ []
  ∧ round client [] registry false (inr "add 2 and 2") st
    = (mkState
         (messages ++
          [AssistantMsg
             (PyStr "I processed the tool responses but have nothing specific to add.")
             None])
         []
         (trace st2 ++ [CallCompletion client messages []])
         (console st2 ++
          [OutAssistant
             "I processed the tool responses but have nothing specific to add."]),
       inr Continue)
  ∧ trace st2
    = trace st1
      ++ backend_calls registry [named_call "call_1" "add" "{}"].
Proof.
  cbn zeta.
  assert (reaches_dispatch client [] "add 2 and 2" (in_chat greedy_script)
            [inr greedy_followup]
            (mkCompletion (Some (PyStr "sum"))
               [named_call "call_1" "add" "{}"])
            [mkEntry "call_1" (PyStr "add") (PyStr "{}")]) as Hr
    by scripted.
  split; [exact Hr |]. split; [discriminate |].
  exact (followup_is_final client [] registry false "add 2 and 2"
           (in_chat greedy_script) _ _ _ _
           [mkToolResponse "call_1" "add" (PyStr "4")] [] greedy_followup
           Hr eq_refl eq_refl).
Defined.

(** The user types [[/b]], which is no exit keyword, and the session is
    over: the round, the loop and chat mode raise, and the line typed
    next is never read. *)
Lemma markup_error_leaves_the_loop_witness :
  let msg := "closing tag '[/b]' at position 0 doesn't match any open tag" in
  let msg' := "closing tag '[/b]' at position 50 doesn't match any open tag" in
  exits (inr "[/b]") = false
  ∧ markup_error (user_panel_text (strip "[/b]")) = Some msg
  ∧ markup_error (round_error_text (MarkupError msg)) = Some msg'
  ∧ (round (make_client ∅) [] registry false (inr "[/b]") (in_chat [])
     = (in_chat [], inl (MarkupError msg'))
     ∧ process_conversation ∅ None [] registry [] false
         [inr "[/b]"; inr "hello"] (in_chat [])
       = (in_chat [], inl (MarkupError msg')))
  ∧ (handle_chat_mode ∅ [backend1] "openai" "gpt-4o-mini" false
       [inr "[/b]"; inr "hello"] (initial [])).2
    = inl (MarkupError
             "closing tag '[/b]' at position 44 doesn't match any open tag").
Proof.
  cbn zeta. split; [reflexivity |]. split; [reflexivity |].
  split; [reflexivity |]. split; [| reflexivity].
  exact (markup_error_leaves_the_loop ∅ None [] registry [] false "[/b]"
           [inr "hello"] (in_chat []) _ _ eq_refl eq_refl eq_refl).
Defined.

(** One backend lists no tool, the other a descriptor without a name. *)
Lemma no_tools_no_session_witness :
  fetched [] [backend3; backend4]
    [(backend3, []); (backend4, [anonymous_tool])] []
  ∧ discovered_tools [(backend3, []); (backend4, [anonymous_tool])] = []
  ∧ handle_chat_mode ∅ [backend3; backend4] "openai" "gpt-4o-mini" false
      [inr "hello"] (initial [])
    = (mkState [] [] ([] ++ map CallFetchTools [backend3; backend4])
         ([] ++ [OutNoTools]), inr SessionEnded)
  ∧ List.filter is_completion_call
      (trace (handle_chat_mode ∅ [backend3; backend4] "openai" "gpt-4o-mini"
                false [inr "hello"] (initial [])).1)
    = List.filter is_completion_call [].
Proof.
  assert (fetched [] [backend3; backend4]
            [(backend3, []); (backend4, [anonymous_tool])] []) as Hf
    by (repeat econstructor).
  split; [exact Hf |]. split; [reflexivity |].
  exact (no_tools_no_session ∅ [backend3; backend4] "openai" "gpt-4o-mini"
           false [inr "hello"] _ (initial []) [] Hf eq_refl).
Defined.

(** Two environments that set neither variable, and two choices of the
    arguments. *)
Lemma provider_and_model_come_from_environment_witness :
  ({["HOME" := "/root"]} : gmap string string) !! "LLM_PROVIDER"
  = (∅ : gmap string string) !! "LLM_PROVIDER"
  ∧ ({["HOME" := "/root"]} : gmap string string) !! "LLM_MODEL"
    = (∅ : gmap string string) !! "LLM_MODEL"
  ∧ handle_chat_mode {["HOME" := "/root"]} [backend1] "anthropic" "claude"
      false [inr "hello"] (initial [])
    = handle_chat_mode ∅ [backend1] "openai" "gpt-4o-mini" false
        [inr "hello"] (initial [])
  ∧ make_client {["HOME" := "/root"]} = mkLLMClient "openai" "gpt-4o-mini".
Proof.
  split; [reflexivity |]. split; [reflexivity |].
  pose proof (provider_and_model_come_from_environment
                ({["HOME" := "/root"]}) ∅ eq_refl eq_refl)
    as (Hchat & _ & Hclient).
  split; [exact (Hchat [backend1] "anthropic" "claude" "openai" "gpt-4o-mini"
                  false [inr "hello"] (initial []))
        | exact Hclient].
Defined.

(** * The further properties on scripted sessions *)

Lemma plain_round_witness :
  exits (inr (nbsp +:+ " hi ")) = false
  ∧ markup_error (user_panel_text (strip (nbsp +:+ " hi "))) = None
  ∧ round client [] registry false (inr (nbsp +:+ " hi "))
      (in_chat [inr (mkCompletion None [])])
    = (mkState
         ([SystemMsg "You have tools."] ++
          [UserMsg "hi"; AssistantMsg (PyStr "No response") None])
         []
         ([] ++ [CallCompletion client
                   ([SystemMsg "You have tools."] ++ [UserMsg "hi"]) []])
         ([] ++ [OutUser "hi"; OutAssistant "No response"]),
       inr Continue).
Proof.
  split; [reflexivity |]. split; [reflexivity |].
  exact (plain_round client [] registry false (nbsp +:+ " hi ")
           (in_chat [inr (mkCompletion None [])]) []
           (mkCompletion None []) eq_refl eq_refl eq_refl eq_refl).
Defined.

Lemma failed_completion_keeps_user_turn_witness :
  exits (inr "") = false
  ∧ markup_error (user_panel_text (strip "")) = None
  ∧ markup_error (round_error_text (OtherException "rate limited")) = None
  ∧ round client [] registry false (inr "")
      (in_chat [inl (OtherException "rate limited")])
    = (mkState ([SystemMsg "You have tools."] ++ [UserMsg ""]) []
         ([] ++ [CallCompletion client
                   ([SystemMsg "You have tools."] ++ [UserMsg ""]) []])
         ([] ++ [OutUser "[No Message]";
                 OutProcessingError (OtherException "rate limited")]),
       inr Continue).
Proof.
  split; [reflexivity |]. split; [reflexivity |]. split; [reflexivity |].
  exact (failed_completion_keeps_user_turn client [] registry false ""
           (in_chat [inl (OtherException "rate limited")]) []
           (OtherException "rate limited") eq_refl eq_refl eq_refl eq_refl).
Defined.

Lemma failed_dispatch_leaves_requests_unanswered_witness :
  let entries := [mkEntry "call_1" (PyStr "add") (PyStr "{}");
                  mkEntry "call_2" (PyStr "boom") (PyStr "{}")] in
  let st := in_chat [] in
  let st2 :=
    (dispatch_tool_calls false wide_registry doomed_calls []
       (set_history (history st ++ [assistant_request (PyStr "") entries])
          st)).1 in
  List.filter is_tool_call (trace st2)
  = [CallTool "add" (JObj []) backend1; CallTool "boom" (JObj []) backend2]
  ∧ handle_tool_calls client [] wide_registry false (PyStr "") doomed_calls st
    = (st2, inl (OtherException "transport closed"))
  ∧ history st2 = history st ++ [assistant_request (PyStr "") entries]
  ∧ completions st2 = completions st.
Proof.
  cbn zeta. split; [reflexivity |].
  apply (failed_dispatch_leaves_requests_unanswered client [] wide_registry
           false (PyStr "") doomed_calls
           [mkEntry "call_1" (PyStr "add") (PyStr "{}");
            mkEntry "call_2" (PyStr "boom") (PyStr "{}")]
           (in_chat []) _ (OtherException "transport closed"));
    reflexivity.
Defined.

Lemma registry_routes_the_advertised_tools_witness :
  let ds := [(backend1, [add_tool]); (backend4, [anonymous_tool]);
             (backend2, [add_tool; echo_tool])] in
  fetched [] [backend1; backend4; backend2] ds []
  ∧ discovered_tools ds = [add_tool; add_tool; echo_tool]
  ∧ ∃ st' tools tool_to_server,
      discover [backend1; backend4; backend2] ([], ∅) (initial [])
      = (st', inr (tools, tool_to_server))
      ∧ tools = discovered_tools ds
      ∧ ∀ n, is_Some (tool_to_server !! n) ↔
             ∃ tool, In tool tools ∧ tool_name tool = PyStr n.
Proof.
  cbn zeta.
  assert (fetched [] [backend1; backend4; backend2]
            [(backend1, [add_tool]); (backend4, [anonymous_tool]);
             (backend2, [add_tool; echo_tool])] []) as Hf
    by (repeat econstructor).
  split; [exact Hf |]. split; [reflexivity |].
  exact (registry_routes_the_advertised_tools [backend1; backend4; backend2]
           _ (initial []) [] Hf).
Defined.

Lemma discovery_failure_ends_chat_mode_witness :
  fetched [] [backend1] [(backend1, [add_tool])] []
  ∧ fetch_tools dead_backend []
    = ([], inl (OtherException "connection refused"))
  ∧ markup_error (chat_error_text (OtherException "connection refused"))
    = None
  ∧ handle_chat_mode ∅ ([backend1] ++ dead_backend :: [backend2]) "openai"
      "gpt-4o-mini" false [inr "hello"] (initial [])
    = (mkState [] []
         ([] ++ map CallFetchTools ([backend1] ++ [dead_backend]))
         ([] ++ [OutChatModeError (OtherException "connection refused")]),
       inr SessionEnded).
Proof.
  assert (fetched [] [backend1] [(backend1, [add_tool])] []) as Hf
    by (repeat econstructor).
  split; [exact Hf |]. split; [reflexivity |]. split; [reflexivity |].
  exact (discovery_failure_ends_chat_mode ∅ [backend1] _ dead_backend
           [backend2] "openai" "gpt-4o-mini" false [inr "hello"] (initial [])
           [] [] (OtherException "connection refused") Hf eq_refl eq_refl).
Defined.

(** A session that ends on [quit], and one that the line [[/b]] ends. *)
Lemma chat_mode_opens_with_the_system_prompt_witness :
  let ds := [(backend1, [add_tool])] in
  let prompt := "You have tools." +:+ GENERAL_GUIDELINES in
  let stale := mkState [UserMsg "stale"] [] [] [] in
  let run := handle_chat_mode ∅ [backend1] "openai" "gpt-4o-mini" false
               [inr "hello"; inr "quit"] stale in
  let cut := handle_chat_mode ∅ [backend1] "openai" "gpt-4o-mini" false
               [inr "[/b]"; inr "quit"] stale in
  fetched [] [backend1] ds []
  ∧ discovered_tools ds ≠ []
  ∧ [SystemMsg prompt] `prefix_of` history run.1
  ∧ run
    = conversation_loop (make_client ∅)
        (convert_to_openai_tools (discovered_tools ds))
        (register_all ds ([], ∅)).2 false [inr "hello"; inr "quit"]
        (mkState [SystemMsg prompt] [] ([] ++ map CallFetchTools [backend1]) [])
  ∧ run.2 = inr SessionEnded
  ∧ history cut.1 = [SystemMsg prompt]
  ∧ cut.2
    = inl (MarkupError
             "closing tag '[/b]' at position 44 doesn't match any open tag").
Proof.
  cbn zeta.
  assert (fetched [] [backend1] [(backend1, [add_tool])] []) as Hf
    by (repeat econstructor).
  split; [exact Hf |]. split; [discriminate |].
  pose proof (chat_mode_opens_with_the_system_prompt ∅ [backend1] "openai"
                "gpt-4o-mini" false [inr "hello"; inr "quit"] _
                (mkState [UserMsg "stale"] [] [] []) [] Hf
                ltac:(discriminate)) as [Hprefix Hrun].
  split; [exact Hprefix |]. split; [exact Hrun |]. scripted.
Defined.

Lemma backend_success_is_reported_witness :
  call_name (named_call "call_1" "echo" "{}") = Some "echo"
  ∧ wide_registry !! "echo" = Some backend2
  ∧ parse_arguments "echo" (named_call "call_1" "echo" "{}") (in_chat [])
    = (in_chat [], inr (JObj []))
  ∧ (∃ st' r,
       dispatch_tool_call false wide_registry (named_call "call_1" "echo" "{}")
         [] (in_chat [])
       = (st', inr ([] ++ [r]))
       ∧ trace st' = trace (in_chat []) ++ [CallTool "echo" (JObj []) backend2]
       ∧ tool_message r = ToolMsg "call_1" "echo" (PyStr "No content")).
Proof.
  split; [reflexivity |]. split; [reflexivity |]. split; [reflexivity |].
  apply (backend_success_is_reported false wide_registry
           (named_call "call_1" "echo" "{}") "echo" backend2 [] (in_chat [])
           (in_chat []) (JObj []) [] (mkCallResult false None None));
    reflexivity.
Defined.

Lemma missing_arguments_parse_as_empty_object_witness :
  call_name (named_call "call_1" "add" "") = Some "add"
  ∧ registry !! "add" = Some backend1
  ∧ function_arguments (named_call "call_1" "add" "") = inr (PyStr "")
  ∧ json_loads "{}" = inr (JObj [])
  ∧ dispatch_tool_call false registry (named_call "call_1" "add" "") []
      (in_chat [])
    = (mkState (history (in_chat [])) []
         (trace (in_chat []) ++ [CallTool "add" (JObj []) backend1])
         (console (in_chat []) ++ [OutToolInvocation "add" (JObj [])]),
       inr [mkToolResponse "call_1" "add" (PyStr "4")]).
Proof.
  split; [reflexivity |]. split; [reflexivity |]. split; [reflexivity |].
  split; [reflexivity |].
  exact (missing_arguments_parse_as_empty_object false registry
           (named_call "call_1" "add" "") "add" backend1 (PyStr "") (JObj [])
           [] (in_chat []) eq_refl eq_refl eq_refl eq_refl eq_refl).
Defined.

Lemma exit_ignores_case_and_blanks_witness :
  lower "QuIt" = lower "quit"
  ∧ exits (inr "QuIt") = exits (inr "quit")
  ∧ In nbsp whitespace
  ∧ exits (inr (nbsp +:+ "exit")) = exits (inr "exit")
  ∧ exits (inr ("exit" +:+ nbsp)) = exits (inr "exit").
Proof.
  assert (In nbsp whitespace) as Hin
    by (vm_compute; do 11 right; left; reflexivity).
  split; [reflexivity |].
  split; [apply (proj1 exit_ignores_case_and_blanks); reflexivity |].
  split; [exact Hin |].
  exact (proj2 exit_ignores_case_and_blanks nbsp "exit" Hin).
Defined.

(** The user types [QUIT] with blanks around it, a no-break space among
    them; and a round whose completion raises. *)
Lemma normal_end_only_on_exit_witness :
  exits (inr (nbsp +:+ " QUIT ")) = true
  ∧ process_conversation ∅ None [] registry [] false
      [inr (nbsp +:+ " QUIT "); inr "hello"] (in_chat [])
    = (add_output OutExiting (in_chat []), inr SessionEnded)
  ∧ round_body client [] registry false (inr "hello") (in_chat [])
    = (mkState [SystemMsg "You have tools."; UserMsg "hello"] []
         [CallCompletion client
            [SystemMsg "You have tools."; UserMsg "hello"] []]
         [OutUser "hello"],
       inl (OtherException "script exhausted"))
  ∧ markup_error (round_error_text (OtherException "script exhausted")) = None
  ∧ round client [] registry false (inr "hello") (in_chat [])
    = (add_output (OutProcessingError (OtherException "script exhausted"))
         (mkState [SystemMsg "You have tools."; UserMsg "hello"] []
            [CallCompletion client
               [SystemMsg "You have tools."; UserMsg "hello"] []]
            [OutUser "hello"]),
       inr Continue)
  ∧ (process_conversation ∅ None [] registry [] false
       [inr "hello"; inr "quit"; inr "hello"] (in_chat [])).2
    = inr (if existsb exits [inr "hello"; inr "quit"; inr "hello"]
           then SessionEnded else AwaitingUserInput).
Proof.
  pose proof (normal_end_only_on_exit ∅ [] registry [] false)
    as (Hexit & Hstatus & Hcaught & _).
  split; [reflexivity |].
  split; [apply Hexit; reflexivity |].
  split; [reflexivity |]. split; [reflexivity |].
  split; [apply Hcaught; reflexivity |].
  destruct (process_conversation ∅ None [] registry [] false
              [inr "hello"; inr "quit"; inr "hello"] (in_chat []))
    as [st' [e | status]] eqn:Hrun; [discriminate Hrun |].
  simpl. f_equal. exact (Hstatus None _ _ _ _ Hrun).
Defined.
